(** * The graph view of the longevity knowledge graph explorer

    A shallow embedding of [web/app/components/GraphVisualization.tsx]:
    the search/filter effect, the ego network of the selected node, the
    render guards, the drag handlers, the zoom bounds, the focus requests
    and the local (ego) graph of the detail panel.

    Conventions.  JavaScript numbers are idealised as real numbers; an
    optional numeric field is a [JsNum] (undefined, null or a number); an
    optional string field is an [option string].  A string is the
    sequence of its code units.  The engine's [toLowerCase] and [trim]
    are parameters of the general form of the filter; [toLowerCase] and
    [trim] below are what they do on strings over the ASCII alphabet.
    React state is threaded explicitly; the objects that d3 mutates in
    place live in a store. *)

From Stdlib Require Import Reals Lra String Ascii List Bool Arith Lia.
From stdpp Require Import base option list strings gmap.

Open Scope string_scope.

(** ** JavaScript values *)

Inductive JsNum : Type :=
| Undefined
| Null
| Num (r : R).

(** [v !== undefined] *)
Definition defined (v : JsNum) : bool :=
  match v with Undefined => false | _ => true end.

(** [v == null], true of both [null] and [undefined]. *)
Definition nullish (v : JsNum) : bool :=
  match v with Num _ => false | _ => true end.

(** Coercion of a defined value to a number ([null] counts as zero). *)
Definition toNumber (v : JsNum) : R :=
  match v with Num r => r | _ => 0%R end.

(** [v || d] for a numeric [v]: zero, null and undefined are falsy. *)
Definition orElse (v : JsNum) (d : R) : R :=
  match v with
  | Num r => if Req_dec_T r 0 then d else r
  | _ => d
  end.

(** Truthiness of an optional string: present and not empty. *)
Definition truthy (s : option string) : bool :=
  match s with
  | Some t => negb (String.eqb t "")
  | None => false
  end.

(** ** Strings *)

(** [String.prototype.toLowerCase] on strings over the ASCII alphabet,
    where it folds [A]-[Z] and nothing else. *)
Definition lower_ascii (c : ascii) : ascii :=
  let n := nat_of_ascii c in
  if ((65 <=? n) && (n <=? 90))%nat then ascii_of_nat (n + 32) else c.

Fixpoint toLowerCase (s : string) : string :=
  match s with
  | EmptyString => EmptyString
  | String c r => String (lower_ascii c) (toLowerCase r)
  end.

(** [String.prototype.trim] on strings over the ASCII alphabet, whose
    white space is the characters 9 to 13 and 32. *)
Definition is_space (c : ascii) : bool :=
  let n := nat_of_ascii c in
  (((9 <=? n) && (n <=? 13)) || (n =? 32))%nat.

Fixpoint trimStart (s : string) : string :=
  match s with
  | String c r => if is_space c then trimStart r else s
  | EmptyString => EmptyString
  end.

Fixpoint trimEnd (s : string) : string :=
  match s with
  | EmptyString => EmptyString
  | String c r =>
      match trimEnd r with
      | EmptyString => if is_space c then EmptyString else String c EmptyString
      | t => String c t
      end
  end.

Definition trim (s : string) : string := trimEnd (trimStart s).

(** [s.includes(q)] *)
Fixpoint includes (s q : string) : bool :=
  String.prefix q s ||
  match s with
  | EmptyString => false
  | String _ r => includes r q
  end.

(** [q] occurs in [s] as a contiguous block. *)
Definition substring_of (q s : string) : Prop :=
  exists pre post, s = pre +:+ q +:+ post.

(** [parts.join(sep)] *)
Definition join (sep : string) (parts : list string) : string :=
  String.concat sep parts.

(** [fields.filter(Boolean)]: undefined and empty entries are dropped. *)
Fixpoint filterBoolean (fields : list (option string)) : list string :=
  match fields with
  | [] => []
  | f :: r =>
      match f with
      | Some s => if String.eqb s "" then filterBoolean r else s :: filterBoolean r
      | None => filterBoolean r
      end
  end.

(** [xs.includes(t)] on an array of strings. *)
Definition arrayIncludes (xs : list string) (t : string) : bool :=
  existsb (String.eqb t) xs.

(** ** Data model *)

Module GraphNode.
Record t : Type := mk {
  id : string;
  type : string;
  content : option string;
  entity_type : option string;
  name : option string;
  canonical_name : option string;
  paper_id : option string;
  statement : option string;
  year : JsNum;
  x : JsNum;
  y : JsNum;
  fx : JsNum;
  fy : JsNum;
  vx : JsNum;
  vy : JsNum
}.

(** A node as the graph document delivers it: no layout fields. *)
Definition plain (i ty : string) : t :=
  mk i ty None None None None None None
     Undefined Undefined Undefined Undefined Undefined Undefined Undefined.

Definition set_pos (vx' vy' : JsNum) (n : t) : t :=
  mk (id n) (type n) (content n) (entity_type n) (name n)
     (canonical_name n) (paper_id n) (statement n) (year n)
     vx' vy' (fx n) (fy n) (vx n) (vy n).

Definition set_x (v : JsNum) (n : t) : t := set_pos v (y n) n.
Definition set_y (v : JsNum) (n : t) : t := set_pos (x n) v n.

Definition set_pin (fx' fy' : JsNum) (n : t) : t :=
  mk (id n) (type n) (content n) (entity_type n) (name n)
     (canonical_name n) (paper_id n) (statement n) (year n)
     (x n) (y n) fx' fy' (vx n) (vy n).

Definition set_vel (vx' vy' : JsNum) (n : t) : t :=
  mk (id n) (type n) (content n) (entity_type n) (name n)
     (canonical_name n) (paper_id n) (statement n) (year n)
     (x n) (y n) (fx n) (fy n) vx' vy'.
End GraphNode.

Module GraphEdge.
(** The end points are node ids: the link force, which replaces them
    by node references, is only ever handed spread copies of the
    edges, so the edges of the graph document keep their ids. *)
Record t : Type := mk {
  source : string;
  target : string;
  type : option string;
  context : option string
}.
End GraphEdge.

Module GraphData.
Record t : Type := mk {
  nodes : list GraphNode.t;
  edges : list GraphEdge.t
}.
End GraphData.

(** [nodes.find(n => n.id === nodeId)] *)
Definition findById (nodes : list GraphNode.t) (nodeId : string)
  : option GraphNode.t :=
  List.find (fun n => String.eqb (GraphNode.id n) nodeId) nodes.

(** ** Search and type filters *)

Module SearchFilter.

(** The text the query is matched against, on strings over the ASCII
    alphabet. *)
Definition searchText (node : GraphNode.t) : string :=
  toLowerCase
    (join " "
       (filterBoolean
          [ Some (GraphNode.id node);
            GraphNode.name node;
            GraphNode.canonical_name node;
            GraphNode.paper_id node;
            Some (GraphNode.type node);
            GraphNode.entity_type node;
            GraphNode.content node ])).

(** The two filter stages of the effect, for a loaded graph, on
    strings over the ASCII alphabet: [filterNodesWith] at [toLowerCase]
    and [trim]. *)
Definition filterNodes (graphData : GraphData.t) (searchQuery : string)
           (selectedTypes : list string) : list GraphNode.t :=
  let filtered := GraphData.nodes graphData in
  let filtered :=
    if (0 <? List.length selectedTypes)%nat
    then List.filter
           (fun node => arrayIncludes selectedTypes (GraphNode.type node))
           filtered
    else filtered in
  let filtered :=
    if negb (String.eqb (trim searchQuery) "")
    then
      let query := toLowerCase searchQuery in
      List.filter (fun node => includes (searchText node) query) filtered
    else filtered in
  filtered.

(** The effect itself: nothing is stored while no graph is loaded. *)
Definition filterEffect (graphData : option GraphData.t)
           (searchQuery : string) (selectedTypes : list string)
           (filteredNodes : list GraphNode.t) : list GraphNode.t :=
  match graphData with
  | None => filteredNodes
  | Some g => filterNodes g searchQuery selectedTypes
  end.

(** The general form of the effect.  [lower] is the engine's
    [String.prototype.toLowerCase] and [strip] its
    [String.prototype.trim], on whatever alphabet the strings of the
    graph are written in. *)
Definition searchTextWith (lower : string -> string) (node : GraphNode.t)
  : string :=
  lower
    (join " "
       (filterBoolean
          [ Some (GraphNode.id node);
            GraphNode.name node;
            GraphNode.canonical_name node;
            GraphNode.paper_id node;
            Some (GraphNode.type node);
            GraphNode.entity_type node;
            GraphNode.content node ])).

Definition filterNodesWith (lower strip : string -> string)
           (graphData : GraphData.t) (searchQuery : string)
           (selectedTypes : list string) : list GraphNode.t :=
  let filtered := GraphData.nodes graphData in
  let filtered :=
    if (0 <? List.length selectedTypes)%nat
    then List.filter
           (fun node => arrayIncludes selectedTypes (GraphNode.type node))
           filtered
    else filtered in
  let filtered :=
    if negb (String.eqb (strip searchQuery) "")
    then
      let query := lower searchQuery in
      List.filter (fun node => includes (searchTextWith lower node) query)
                  filtered
    else filtered in
  filtered.

(** The text filter as the specification words it: the lower-cased
    query occurs in the lower-cased concatenation of the present
    fields id, name, canonicalName, statement, type, entityType,
    content. *)
Definition spec_searchText (node : GraphNode.t) : string :=
  toLowerCase
    (join ""
       (filterBoolean
          [ Some (GraphNode.id node);
            GraphNode.name node;
            GraphNode.canonical_name node;
            GraphNode.statement node;
            Some (GraphNode.type node);
            GraphNode.entity_type node;
            GraphNode.content node ])).

Definition spec_textFilter (searchQuery : string) (node : GraphNode.t)
  : Prop :=
  substring_of (toLowerCase searchQuery) (spec_searchText node).

End SearchFilter.

(** ** Selection: the ego network of a node *)

Module Selection.

Record Connection : Type := mkConnection {
  node : GraphNode.t;
  edge : GraphEdge.t
}.

Record ConnectedNodes : Type := mkConnected {
  incoming : list Connection;
  outgoing : list Connection
}.

Definition noConnections : ConnectedNodes := mkConnected [] [].

(** The body of the [forEach] over the edges; [push] appends. *)
Definition visitEdge (graphData : GraphData.t) (nodeId : string)
           (acc : ConnectedNodes) (edge : GraphEdge.t) : ConnectedNodes :=
  if String.eqb (GraphEdge.target edge) nodeId then
    match findById (GraphData.nodes graphData) (GraphEdge.source edge) with
    | Some sourceNode =>
        mkConnected (incoming acc ++ [mkConnection sourceNode edge])
                    (outgoing acc)
    | None => acc
    end
  else if String.eqb (GraphEdge.source edge) nodeId then
    match findById (GraphData.nodes graphData) (GraphEdge.target edge) with
    | Some targetNode =>
        mkConnected (incoming acc)
                    (outgoing acc ++ [mkConnection targetNode edge])
    | None => acc
    end
  else acc.

Definition findConnectedNodes (graphData : option GraphData.t)
           (nodeId : string) : ConnectedNodes :=
  match graphData with
  | None => noConnections
  | Some g => fold_left (visitEdge g nodeId) (GraphData.edges g) noConnections
  end.

(** The effect that refreshes the connections of the selection. *)
Definition connectionsEffect (graphData : option GraphData.t)
           (selectedNode : option GraphNode.t) : ConnectedNodes :=
  match selectedNode with
  | Some n => findConnectedNodes graphData (GraphNode.id n)
  | None => noConnections
  end.

(** What every recorded connection satisfies: its edge is an edge of
    the graph at the node, and its node is the one the other end of
    the edge resolves to. *)
Definition incomingOk (g : GraphData.t) (nodeId : string) (c : Connection)
  : Prop :=
  In (edge c) (GraphData.edges g) /\
  GraphEdge.target (edge c) = nodeId /\
  findById (GraphData.nodes g) (GraphEdge.source (edge c)) = Some (node c).

Definition outgoingOk (g : GraphData.t) (nodeId : string) (c : Connection)
  : Prop :=
  In (edge c) (GraphData.edges g) /\
  GraphEdge.target (edge c) <> nodeId /\
  GraphEdge.source (edge c) = nodeId /\
  findById (GraphData.nodes g) (GraphEdge.target (edge c)) = Some (node c).

Definition connectionsOk (g : GraphData.t) (nodeId : string)
           (r : ConnectedNodes) : Prop :=
  Forall (incomingOk g nodeId) (incoming r) /\
  Forall (outgoingOk g nodeId) (outgoing r).

End Selection.

(** ** What is rendered, and when the simulation is created *)

Module Render.

Inductive Screen : Type :=
| LoadingScreen
| ErrorScreen (message : string)
| NoDataScreen
| GraphScreen (graphData : GraphData.t).

(** The chain of early returns that ends the component function. *)
Definition render (loading : bool) (error : option string)
           (graphData : option GraphData.t) : Screen :=
  if loading then LoadingScreen
  else if truthy error then ErrorScreen (default "" error)
  else
    match graphData with
    | None => NoDataScreen
    | Some g => GraphScreen g
    end.

(** The forces the main simulation is configured with. *)
Record Forces : Type := mkForces {
  linkDistance : R;
  chargeStrength : R;
  center : R * R;
  collisionRadius : R;
  xTarget : R;
  xStrength : R;
  yTarget : R;
  yStrength : R
}.

Record Simulation : Type := mkSimulation {
  simNodes : list GraphNode.t;
  simLinks : list GraphEdge.t;
  forces : Forces
}.

(** How the start of the simulation effect ends: it returns at once,
    it throws in the link force, or the simulation runs. *)
Inductive Start : Type :=
| NotStarted
| LinkError (nodeId : string)
| Started (simulation : Simulation).

(** The link force of the force library, a dependency that is not
    part of the sources: handed the nodes, it looks up both ends of
    every link among the nodes by id, the source before the target, and
    throws at the first end that names no node. *)
Fixpoint missingEnd (nodes : list GraphNode.t) (links : list GraphEdge.t)
  : option string :=
  match links with
  | [] => None
  | link :: rest =>
      match findById nodes (GraphEdge.source link) with
      | None => Some (GraphEdge.source link)
      | Some _ =>
          match findById nodes (GraphEdge.target link) with
          | None => Some (GraphEdge.target link)
          | Some _ => missingEnd nodes rest
          end
      end
  end.

(** The start of the simulation effect: it returns at once without a
    graph or without the mounted [svg]; otherwise the simulation is
    created over spread copies of the nodes and edges, unless the link
    force throws.  [clientWidth] and [clientHeight] are those of the
    parent container. *)
Definition initSimulation (graphData : option GraphData.t)
           (svgMounted : bool) (clientWidth clientHeight : JsNum)
  : Start :=
  match graphData with
  | None => NotStarted
  | Some g =>
      if negb svgMounted then NotStarted
      else
        let width := orElse clientWidth 1200 in
        let height := orElse clientHeight 800 in
        let nodes := List.map (fun d => d) (GraphData.nodes g) in
        let links := List.map (fun d => d) (GraphData.edges g) in
        match missingEnd nodes links with
        | Some nodeId => LinkError nodeId
        | None =>
            Started (mkSimulation nodes links
                       (mkForces (Rmin 60 (width / 20)) (-300)
                                 (width / 2, height / 2)%R 15
                                 (width / 2) (1 / 10) (height / 2) (1 / 10)))
        end
  end.

End Render.

(** ** Dragging a node of the main simulation *)

Module Drag.

(** What the handlers touch: the dragged node and the temperature
    target of the simulation, which [restart] also sets running. *)
Record State : Type := mkState {
  d : GraphNode.t;
  alphaTarget : R;
  running : bool
}.

Inductive Event : Type :=
| DragStart (active : nat)
| DragMove (ex ey : R)
| DragEnd (active : nat)
| Tick (px py qx qy : R).

Definition dragstarted (active : nat) (s : State) : State :=
  let s := if (active =? 0)%nat
           then mkState (d s) (3 / 10) true
           else s in
  mkState (GraphNode.set_pin (GraphNode.x (d s)) (GraphNode.y (d s)) (d s))
          (alphaTarget s) (running s).

Definition dragged (ex ey : R) (s : State) : State :=
  mkState (GraphNode.set_pin (Num ex) (Num ey) (d s))
          (alphaTarget s) (running s).

Definition dragended (active : nat) (s : State) : State :=
  let s := if (active =? 0)%nat
           then mkState (d s) 0 (running s)
           else s in
  mkState (GraphNode.set_pin Null Null (d s)) (alphaTarget s) (running s).

(** Modelled from the spec: the tick of the force library, which is
    a dependency and not part of the sources.  A node with a pin has
    its position forced to the pin on that axis and its velocity
    cleared; a free axis takes the position [p] and velocity [q] that
    the integration of the forces yields. *)
Definition tickAxis (pin : JsNum) (p q : R) : JsNum * JsNum :=
  if nullish pin then (Num p, Num q) else (pin, Num 0).

Definition tick (px py qx qy : R) (n : GraphNode.t) : GraphNode.t :=
  let ax := tickAxis (GraphNode.fx n) px qx in
  let ay := tickAxis (GraphNode.fy n) py qy in
  GraphNode.set_vel (snd ax) (snd ay)
    (GraphNode.set_pos (fst ax) (fst ay) n).

Definition step (s : State) (e : Event) : State :=
  match e with
  | DragStart a => dragstarted a s
  | DragMove ex ey => dragged ex ey s
  | DragEnd a => dragended a s
  | Tick px py qx qy =>
      mkState (tick px py qx qy (d s)) (alphaTarget s) (running s)
  end.

Definition run (s : State) (es : list Event) : State := fold_left step es s.

Definition isTick (e : Event) : bool :=
  match e with Tick _ _ _ _ => true | _ => false end.

End Drag.

(** ** The zoom behaviour *)

Module Zoom.

(** A zoom transform: scale [k] and translation [(tx, ty)]. *)
Record Transform : Type := mkTransform {
  k : R;
  tx : R;
  ty : R
}.

Definition zoomIdentity : Transform := mkTransform 1 0 0.

(** [t.translate(x, y)] and [t.scale(s)] of the zoom library. *)
Definition translate (x y : R) (t : Transform) : Transform :=
  mkTransform (k t) (tx t + k t * x) (ty t + k t * y).

Definition scale (s : R) (t : Transform) : Transform :=
  mkTransform (k t * s) (tx t) (ty t).

(** The extent the behaviour is configured with. *)
Definition scaleExtent : R * R := (1 / 10, 4)%R.

(** Modelled from the spec: the handling of a user gesture by the
    zoom library, which is a dependency and not part of the sources.
    The transform a gesture asks for is applied with its scale
    clamped to the configured extent. *)
Definition applyUserPanZoom (extent : R * R) (requested : Transform)
  : Transform :=
  mkTransform (Rmax (fst extent) (Rmin (snd extent) (k requested)))
              (tx requested) (ty requested).

(** Modelled from the spec: a wheel or pinch gesture multiplies the
    current scale by the factor its delta stands for and translates
    by [(dx, dy)]. *)
Definition userZoom (extent : R * R) (current : Transform)
           (factor dx dy : R) : Transform :=
  applyUserPanZoom extent
    (mkTransform (k current * factor) (tx current + dx) (ty current + dy)).

(** The [zoom] listener: the container shows the event's transform. *)
Definition onZoom (eventTransform : Transform) (container : Transform)
  : Transform := eventTransform.

(** The viewport after a user gesture on the configured behaviour. *)
Definition viewportAfterGesture (current : Transform) (factor dx dy : R)
  : Transform :=
  onZoom (userZoom scaleExtent current factor dx dy) current.

End Zoom.

(** ** Focus requests *)

Module Focus.

(** A pending [setTimeout] callback.  The closures hold on to node
    objects; a clone of the running simulation is its index in the
    simulation's node array. *)
Inductive Timer : Type :=
| TryFocusSearch (simulationNode : option nat) (targetNode : GraphNode.t)
                 (attempts : nat)
| TryFocusMount (targetNode : nat) (width height : R) (attempts : nat).

Record View : Type := mkView {
  graphData : option GraphData.t;
  svgMounted : bool;
  zoomBehavior : bool;
  simulationNodes : option (list GraphNode.t);
  clientWidth : JsNum;
  clientHeight : JsNum;
  selectedNode : option GraphNode.t;
  showFullContent : bool;
  showLocalGraph : bool;
  transform : Zoom.Transform;
  timers : list (nat * Timer)
}.

Definition setSelected (n : GraphNode.t) (resetPanels : bool) (v : View)
  : View :=
  mkView (graphData v) (svgMounted v) (zoomBehavior v) (simulationNodes v)
         (clientWidth v) (clientHeight v) (Some n)
         (if resetPanels then false else showFullContent v)
         (if resetPanels then false else showLocalGraph v)
         (transform v) (timers v).

Definition setTransform (t : Zoom.Transform) (v : View) : View :=
  mkView (graphData v) (svgMounted v) (zoomBehavior v) (simulationNodes v)
         (clientWidth v) (clientHeight v) (selectedNode v)
         (showFullContent v) (showLocalGraph v) t (timers v).

Definition setTimeout (cb : Timer) (delay : nat) (v : View) : View :=
  mkView (graphData v) (svgMounted v) (zoomBehavior v) (simulationNodes v)
         (clientWidth v) (clientHeight v) (selectedNode v)
         (showFullContent v) (showLocalGraph v) (transform v)
         (timers v ++ [(delay, cb)]).

Definition dropTimer (v : View) : View :=
  mkView (graphData v) (svgMounted v) (zoomBehavior v) (simulationNodes v)
         (clientWidth v) (clientHeight v) (selectedNode v)
         (showFullContent v) (showLocalGraph v) (transform v)
         (tl (timers v)).

(** [nodes.find(p)] as the position of the first match. *)
Fixpoint findIndex (p : GraphNode.t -> bool) (nodes : list GraphNode.t)
  : option nat :=
  match nodes with
  | [] => None
  | n :: r => if p n then Some 0%nat else option_map S (findIndex p r)
  end.

(** The object a captured clone refers to. *)
Definition clone (v : View) (i : nat) : option GraphNode.t :=
  match simulationNodes v with
  | Some nodes => nth_error nodes i
  | None => None
  end.

Definition positioned (n : GraphNode.t) : bool :=
  defined (GraphNode.x n) && defined (GraphNode.y n).

(** [simulationNode || targetNode] *)
Definition nodeToFocus (v : View) (simulationNode : option nat)
           (targetNode : GraphNode.t) : GraphNode.t :=
  match simulationNode with
  | Some i => default targetNode (clone v i)
  | None => targetNode
  end.

Definition performFocus (simulationNode : option nat)
           (targetNode : GraphNode.t) (v : View) : View :=
  let n := nodeToFocus v simulationNode targetNode in
  if positioned n then
    let currentWidth := orElse (clientWidth v) 1200 in
    let currentHeight := orElse (clientHeight v) 800 in
    setTransform
      (Zoom.translate (- toNumber (GraphNode.x n)) (- toNumber (GraphNode.y n))
         (Zoom.scale (5 / 2)
            (Zoom.translate (currentWidth / 2) (currentHeight / 2)
               Zoom.zoomIdentity)))
      v
  else v.

Definition tryFocusSearch (simulationNode : option nat)
           (targetNode : GraphNode.t) (attempts : nat) (v : View) : View :=
  let attempts := S attempts in
  if positioned (nodeToFocus v simulationNode targetNode) then
    performFocus simulationNode targetNode v
  else if (attempts <? 8)%nat then
    setTimeout (TryFocusSearch simulationNode targetNode attempts) 250 v
  else v.

(** Choosing a node in the search panel. *)
Definition focusOnNodeFromSearch (nodeId : string) (v : View) : View :=
  match graphData v with
  | None => v
  | Some g =>
      if negb (svgMounted v) then v
      else
        match findById (GraphData.nodes g) nodeId with
        | Some targetNode =>
            if zoomBehavior v then
              let v := setSelected targetNode true v in
              let simulationNode :=
                match simulationNodes v with
                | Some nodes =>
                    findIndex
                      (fun n => String.eqb (GraphNode.id n) nodeId) nodes
                | None => None
                end in
              match simulationNode with
              | Some i =>
                  if match clone v i with
                     | Some n => defined (GraphNode.x n)
                     | None => false
                     end
                  then performFocus simulationNode targetNode v
                  else setTimeout
                         (TryFocusSearch simulationNode targetNode 0) 100 v
              | None =>
                  setTimeout (TryFocusSearch simulationNode targetNode 0) 100 v
              end
            else v
        | None => v
        end
  end.

(** The node a [focusNodeId] of the page address designates. *)
Definition matchesFocus (focusNodeId : string) (n : GraphNode.t) : bool :=
  String.eqb (GraphNode.id n) focusNodeId ||
  match GraphNode.paper_id n with
  | Some p => String.eqb p focusNodeId
  | None => false
  end.

Definition focusOnTargetNode (targetNode : nat) (width height : R)
           (v : View) : View :=
  match clone v targetNode with
  | Some n =>
      if positioned n then
        setTransform
          (Zoom.scale (5 / 2)
             (Zoom.translate (width / 2 - toNumber (GraphNode.x n))
                             (height / 2 - toNumber (GraphNode.y n))
                             Zoom.zoomIdentity))
          v
      else v
  | None => v
  end.

Definition maxAttempts : nat := 10.

Definition tryFocusMount (targetNode : nat) (width height : R)
           (attempts : nat) (v : View) : View :=
  let attempts := S attempts in
  if match clone v targetNode with
     | Some n => positioned n
     | None => false
     end
  then focusOnTargetNode targetNode width height v
  else if (attempts <? maxAttempts)%nat then
    setTimeout (TryFocusMount targetNode width height attempts) 200 v
  else v.

(** One run of the focus block that closes the simulation effect;
    [nodes], the clones just handed to the simulation, are
    [simulationNodes].  The effect has the selection among its
    dependencies, so the selection this block makes runs the effect,
    and with it this block, again; and the force library gives every
    clone a position when the simulation is created, before this block
    runs. *)
Definition focusOnMount (focusNodeId : option string) (width height : R)
           (v : View) : View :=
  match focusNodeId with
  | Some f =>
      if truthy focusNodeId then
        match simulationNodes v with
        | Some nodes =>
            match findIndex (matchesFocus f) nodes with
            | Some i =>
                match nth_error nodes i with
                | Some targetNode =>
                    setTimeout (TryFocusMount i width height 0) 300
                      (setSelected targetNode false v)
                | None => v
                end
            | None => v
            end
        | None => v
        end
      else v
  | None => v
  end.

(** The oldest pending timer fires. *)
Definition fire (v : View) : View :=
  match timers v with
  | [] => v
  | (_, cb) :: _ =>
      let v := dropTimer v in
      match cb with
      | TryFocusSearch sn tn a => tryFocusSearch sn tn a v
      | TryFocusMount tn w h a => tryFocusMount tn w h a v
      end
  end.

Fixpoint fireMany (count : nat) (v : View) : View :=
  match count with
  | O => v
  | S c => fireMany c (fire v)
  end.

(** No node of the graph carries the id. *)
Definition idAbsent (nodeId : string) (nodes : list GraphNode.t) : Prop :=
  forall n, In n nodes -> GraphNode.id n <> nodeId.

Definition paperIdAbsent (nodeId : string) (nodes : list GraphNode.t)
  : Prop :=
  forall n, In n nodes -> GraphNode.paper_id n <> Some nodeId.

End Focus.

(** ** The local graph of the detail panel *)

Module LocalGraph.

(** Node objects are held by reference: the nodes of the graph
    document, the clones of the main simulation and the clones of the
    local graph are all objects of one store. *)
Abbreviation loc := nat.

Abbreviation store := (gmap nat GraphNode.t).

Record Connection : Type := mkConnection {
  node : loc;
  edge : GraphEdge.t
}.

(** [new] object. *)
Definition alloc (s : store) (n : GraphNode.t) : store * loc :=
  let l := fresh (dom s) in (<[l := n]> s, l).

Fixpoint allocAll (s : store) (ns : list GraphNode.t) : store * list loc :=
  match ns with
  | [] => (s, [])
  | n :: r =>
      let '(s1, l) := alloc s n in
      let '(s2, ls) := allocAll s1 r in
      (s2, l :: ls)
  end.

(** Reading a list of objects. *)
Fixpoint readAll (s : store) (ls : list loc) : option (list GraphNode.t) :=
  match ls with
  | [] => Some []
  | l :: r =>
      match s !! l, readAll s r with
      | Some n, Some ns => Some (n :: ns)
      | _, _ => None
      end
  end.

(** Writing the objects of [ls] in turn. *)
Fixpoint writeAll (s : store) (ls : list loc) (ns : list GraphNode.t)
  : store :=
  match ls, ns with
  | l :: ls', n :: ns' => writeAll (<[l := n]> s) ls' ns'
  | _, _ => s
  end.

Definition radius : R := 80.

(** The callback of [localNodes.map]: a spread copy of [d] with its
    starting position, [count] being [localNodes.length]. *)
Definition initialNode (width height : R) (selectedId : string)
           (count : nat) (i : nat) (d : GraphNode.t) : GraphNode.t :=
  if String.eqb (GraphNode.id d) selectedId then
    GraphNode.set_pin (Num (width / 2)) (Num (height / 2))
      (GraphNode.set_vel (Num 0) (Num 0)
         (GraphNode.set_pos (Num (width / 2)) (Num (height / 2)) d))
  else
    let angle := (INR i * 2 * PI / INR (count - 1))%R in
    GraphNode.set_vel (Num 0) (Num 0)
      (GraphNode.set_pos (Num (width / 2 + cos angle * radius))
                         (Num (height / 2 + sin angle * radius)) d).

Fixpoint mapi_from {A B : Type} (f : nat -> A -> B) (i : nat) (l : list A)
  : list B :=
  match l with
  | [] => []
  | a :: r => f i a :: mapi_from f (S i) r
  end.

Definition initialNodes (width height : R) (selectedId : string)
           (localNodes : list GraphNode.t) : list GraphNode.t :=
  mapi_from (initialNode width height selectedId (List.length localNodes))
            0 localNodes.

(** The running local simulation, as its closures see it. *)
Record Panel : Type := mkPanel {
  nodesCopy : list loc;
  selectedNode : loc;
  width : R;
  height : R;
  running : bool
}.

Inductive Outcome : Type :=
| NotShown
| SingleNode (width height : R)
| Started (p : Panel).

Definition panelSize (panelWidth : R) : R * R :=
  (Rmax 280 (panelWidth - 40),
   Rmax 250 (Rmin 400 (panelWidth * (6 / 10))))%R.

Definition localNodesOf (selectedNode : loc)
           (incoming outgoing : list Connection) : list loc :=
  selectedNode :: (List.map node incoming ++ List.map node outgoing).

(** [createLocalGraph]: nothing without a selection, the mounted
    panel [svg] and the panel being shown; a lone node is drawn
    without a simulation; otherwise the simulation is created over
    fresh copies of the local nodes. *)
Definition createLocalGraph (s : store) (selectedNode : option loc)
           (svgMounted showLocalGraph : bool)
           (incoming outgoing : list Connection) (panelWidth : R)
  : option (store * Outcome) :=
  match selectedNode with
  | None => Some (s, NotShown)
  | Some sel =>
      if negb svgMounted || negb showLocalGraph then Some (s, NotShown)
      else
        let '(width, height) := panelSize panelWidth in
        let localNodes := localNodesOf sel incoming outgoing in
        if (List.length localNodes <=? 1)%nat
        then Some (s, SingleNode width height)
        else
          match readAll s localNodes, s !! sel with
          | Some values, Some selected =>
              let '(s', copies) :=
                allocAll s
                  (initialNodes width height (GraphNode.id selected) values)
              in
              Some (s', Started (mkPanel copies sel width height true))
          | _, _ => None
          end
  end.

(** Events of the local simulation: a tick, in which the force
    library rewrites the nodes it was given (as [forces] says) before
    the tick listener runs; the timer that releases the pin; the timer
    that stops the simulation. *)
Inductive Event : Type :=
| Tick (forces : list GraphNode.t -> list GraphNode.t)
| ReleasePin
| Stop.

(** The tick listener keeps every copy inside the panel. *)
Definition keepInBounds (width height : R) (d : GraphNode.t) : GraphNode.t :=
  let d1 :=
    GraphNode.set_x
      (Num (Rmax 25 (Rmin (width - 25) (orElse (GraphNode.x d) (width / 2)))))
      d in
  GraphNode.set_y
    (Num (Rmax 25 (Rmin (height - 25) (orElse (GraphNode.y d1) (height / 2)))))
    d1.

Fixpoint findLoc (s : store) (p : GraphNode.t -> bool) (ls : list loc)
  : option loc :=
  match ls with
  | [] => None
  | l :: r =>
      match s !! l with
      | Some n => if p n then Some l else findLoc s p r
      | None => findLoc s p r
      end
  end.

Definition releasePin (s : store) (p : Panel) : store :=
  match s !! selectedNode p with
  | Some selected =>
      match findLoc s
              (fun n => String.eqb (GraphNode.id n) (GraphNode.id selected))
              (nodesCopy p) with
      | Some centerNode =>
          match s !! centerNode with
          | Some n => <[centerNode := GraphNode.set_pin Null Null n]> s
          | None => s
          end
      | None => s
      end
  | None => s
  end.

Definition onTick (forces : list GraphNode.t -> list GraphNode.t)
           (s : store) (p : Panel) : store :=
  match readAll s (nodesCopy p) with
  | Some values =>
      let s1 := writeAll s (nodesCopy p) (forces values) in
      match readAll s1 (nodesCopy p) with
      | Some moved =>
          writeAll s1 (nodesCopy p)
                   (List.map (keepInBounds (width p) (height p)) moved)
      | None => s1
      end
  | None => s
  end.

Definition step (sp : store * Panel) (e : Event) : store * Panel :=
  let '(s, p) := sp in
  match e with
  | Tick forces => if running p then (onTick forces s p, p) else (s, p)
  | ReleasePin => (releasePin s p, p)
  | Stop => (s, mkPanel (nodesCopy p) (selectedNode p) (width p) (height p) false)
  end.

Definition run (sp : store * Panel) (es : list Event) : store * Panel :=
  fold_left step es sp.

(** The store after the panel has been created and has lived
    through the events [es]. *)
Definition storeAfter (created : store * Outcome) (es : list Event)
  : store :=
  match created with
  | (s, Started p) => fst (run (s, p) es)
  | (s, _) => s
  end.

End LocalGraph.

(** ** Node styling *)

Module Style.

(** [selectedNode && selectedNode.id === node.id] *)
Definition isSelected (selectedNode : option GraphNode.t)
           (node : GraphNode.t) : bool :=
  match selectedNode with
  | Some s => String.eqb (GraphNode.id s) (GraphNode.id node)
  | None => false
  end.

(** [s || ''] *)
Definition orEmpty (s : option string) : string :=
  match s with
  | Some t => t
  | None => ""
  end.

Definition typeColor (type : string) : string :=
  if String.eqb type "Paper" then "#00ff00"
  else if String.eqb type "Entity" then "#00ccff"
  else if String.eqb type "Result" then "#ffaa00"
  else if String.eqb type "Conclusion" then "#ff00aa"
  else "#888888".

Definition getNodeColor (selectedNode : option GraphNode.t)
           (highlightPapers : list string) (node : GraphNode.t) : string :=
  if isSelected selectedNode node then "#ffff00"
  else if arrayIncludes highlightPapers (GraphNode.id node)
          || arrayIncludes highlightPapers (orEmpty (GraphNode.paper_id node))
  then "#ffd700"
  else typeColor (GraphNode.type node).

Definition getNodeSize (selectedNode : option GraphNode.t)
           (node : GraphNode.t) : R :=
  let type := GraphNode.type node in
  if isSelected selectedNode node then
    if String.eqb type "Paper" then 18
    else if String.eqb type "Entity" then 14
    else if String.eqb type "Result" then 12
    else if String.eqb type "Conclusion" then 12
    else 10
  else
    if String.eqb type "Paper" then 12
    else if String.eqb type "Entity" then 8
    else if String.eqb type "Result" then 6
    else if String.eqb type "Conclusion" then 6
    else 5.

(** The radius while the pointer is over the circle. *)
Definition hoverSize (selectedNode : option GraphNode.t)
           (node : GraphNode.t) : R :=
  (getNodeSize selectedNode node * (12 / 10))%R.

(** [getNodeLabel]; [showNumber] is the conversion of a number to
    text inside the template string. *)
Definition getNodeLabel (showNumber : R -> string) (node : GraphNode.t)
  : string :=
  if truthy (GraphNode.canonical_name node)
  then orEmpty (GraphNode.canonical_name node)
  else if truthy (GraphNode.name node) then orEmpty (GraphNode.name node)
  else if truthy (GraphNode.statement node)
  then orEmpty (GraphNode.statement node)
  else if truthy (GraphNode.content node)
  then orEmpty (GraphNode.content node)
  else if String.eqb (GraphNode.type node) "Paper" then
    "Paper " +:+
    match GraphNode.year node with
    | Num r => if Req_dec_T r 0 then "" else showNumber r
    | _ => ""
    end
  else GraphNode.type node.

End Style.

(** ** The filter bar and the result list *)

Module Filters.

(** [[...new Set(xs)]]: the distinct entries in order of first
    appearance. *)
Definition unique (xs : list string) : list string :=
  fold_left (fun seen x => if arrayIncludes seen x then seen else (seen ++ [x])%list)
            xs [].

Definition nodeTypes (graphData : option GraphData.t) : list string :=
  match graphData with
  | Some g => unique (List.map GraphNode.type (GraphData.nodes g))
  | None => []
  end.

Definition toggleTypeFilter (type : string) (prev : list string)
  : list string :=
  if arrayIncludes prev type
  then List.filter (fun t => negb (String.eqb t type)) prev
  else (prev ++ [type])%list.

(** The count shown on the button of a type. *)
Definition typeCount (graphData : option GraphData.t) (type : string) : nat :=
  match graphData with
  | Some g =>
      List.length
        (List.filter (fun n => String.eqb (GraphNode.type n) type)
                     (GraphData.nodes g))
  | None => 0%nat
  end.

(** [filteredNodes.slice(0, 50)], the rows of the result list. *)
Definition shownResults (filteredNodes : list GraphNode.t)
  : list GraphNode.t :=
  firstn 50 filteredNodes.

(** Whether the note about the first 50 results is shown. *)
Definition truncationNote (filteredNodes : list GraphNode.t) : bool :=
  (50 <? List.length filteredNodes)%nat.

End Filters.

(** ** The graph page and the links of the report page *)

Module Page.

(** [s.split(sep)] for a one-character separator. *)
Fixpoint split (sep : ascii) (s : string) : list string :=
  match s with
  | EmptyString => [EmptyString]
  | String c r =>
      if Ascii.eqb c sep then EmptyString :: split sep r
      else
        match split sep r with
        | h :: t => String c h :: t
        | [] => [String c EmptyString]
        end
  end.

Record Props : Type := mkProps {
  focusNodeId : option string;
  highlightPapers : list string;
  openSearch : bool
}.

(** The props the graph page derives from the [focus], [highlight]
    and [search] parameters of its address. *)
Definition graphPageProps (focus highlight search : option string) : Props :=
  mkProps (if truthy focus then focus else None)
          (match highlight with
           | Some h => split "," h
           | None => []
           end)
          (match search with
           | Some s => String.eqb s "open"
           | None => false
           end).

(** The mount effect opens the search panel for a focus, a highlight
    or an explicit request. *)
Definition showSearchOnMount (p : Props) : bool :=
  truthy (focusNodeId p)
  || (0 <? List.length (highlightPapers p))%nat
  || openSearch p.

(** The value the report page gives the [highlight] parameter. *)
Definition highlightParam (papers : list string) : string := join "," papers.

(** The report page renders its graph links for a non-empty list. *)
Definition linkShown (papers : list string) : bool :=
  (0 <? List.length papers)%nat.

Fixpoint hasChar (c : ascii) (s : string) : bool :=
  match s with
  | EmptyString => false
  | String c' r => Ascii.eqb c' c || hasChar c r
  end.

End Page.

(** ** Resizing the detail panel *)

Module PanelResize.

(** The [mousemove] listener; [innerWidth] is the window's. *)
Definition handleMouseMove (isResizing : bool) (innerWidth clientX : R)
           (panelWidth : R) : R :=
  if isResizing then
    let newWidth := (innerWidth - clientX)%R in
    let minWidth := 300%R in
    let maxWidth := (innerWidth * (8 / 10))%R in
    Rmax minWidth (Rmin maxWidth newWidth)
  else panelWidth.

(** The panel's [svg] for the local graph is part of the page when
    the local graph is shown and the selection has a connection. *)
Definition localSvgMounted (showLocalGraph : bool)
           (incoming outgoing : list LocalGraph.Connection) : bool :=
  showLocalGraph
  && (0 <? List.length incoming + List.length outgoing)%nat.

End PanelResize.

(** ** The other requests to the viewport *)

Module Viewport.

(** Where a transform puts a point of the simulation: [t.apply(p)]
    of the zoom library. *)
Definition applyTransform (t : Zoom.Transform) (p : R * R) : R * R :=
  (Zoom.k t * fst p + Zoom.tx t, Zoom.k t * snd p + Zoom.ty t)%R.

(** [zoomIdentity.translate(cx, cy).scale(2.5).translate(-x, -y)] *)
Definition zoomTo (cx cy x y : R) : Zoom.Transform :=
  Zoom.translate (- x) (- y)
    (Zoom.scale (5 / 2) (Zoom.translate cx cy Zoom.zoomIdentity)).

(** A click on a node of the canvas; [width] and [height] are those
    the simulation effect measured. *)
Definition clickNode (d : GraphNode.t) (width height : R) (v : Focus.View)
  : Focus.View :=
  Focus.setTransform
    (zoomTo (width / 2) (height / 2)
            (orElse (GraphNode.x d) 0) (orElse (GraphNode.y d) 0))
    (Focus.setSelected d true v).

(** A click on a connection of the detail panel or on a neighbour in
    the local graph. *)
Definition focusOnNode (nodeId : string) (v : Focus.View) : Focus.View :=
  match Focus.graphData v with
  | None => v
  | Some g =>
      match findById (GraphData.nodes g) nodeId with
      | Some node =>
          if Focus.svgMounted v && Focus.zoomBehavior v then
            let v1 :=
              match Focus.simulationNodes v with
              | Some nodes =>
                  match findById nodes nodeId with
                  | Some simulationNode =>
                      Focus.setTransform
                        (zoomTo 960 540
                                (orElse (GraphNode.x simulationNode) 0)
                                (orElse (GraphNode.y simulationNode) 0))
                        v
                  | None => v
                  end
              | None => v
              end in
            Focus.setSelected node true v1
          else v
      | None => v
      end
  end.

Definition resetZoom (v : Focus.View) : Focus.View :=
  if Focus.svgMounted v && Focus.zoomBehavior v
  then Focus.setTransform Zoom.zoomIdentity v
  else v.

(** Closing the detail panel. *)
Definition closePanel (v : Focus.View) : Focus.View :=
  Focus.mkView (Focus.graphData v) (Focus.svgMounted v) (Focus.zoomBehavior v)
               (Focus.simulationNodes v) (Focus.clientWidth v)
               (Focus.clientHeight v) None false false
               (Focus.transform v) (Focus.timers v).

(** What can happen to the viewport. *)
Inductive Event : Type :=
| Gesture (factor dx dy : R)
| Click (d : GraphNode.t) (width height : R)
| SearchFocus (nodeId : string)
| NodeFocus (nodeId : string)
| MountFocus (focusNodeId : option string) (width height : R)
| Reset
| Close
| TimerFires.

Definition step (v : Focus.View) (e : Event) : Focus.View :=
  match e with
  | Gesture factor dx dy =>
      Focus.setTransform
        (Zoom.viewportAfterGesture (Focus.transform v) factor dx dy) v
  | Click d width height => clickNode d width height v
  | SearchFocus nodeId => Focus.focusOnNodeFromSearch nodeId v
  | NodeFocus nodeId => focusOnNode nodeId v
  | MountFocus f width height => Focus.focusOnMount f width height v
  | Reset => resetZoom v
  | Close => closePanel v
  | TimerFires => Focus.fire v
  end.

Definition run (v : Focus.View) (es : list Event) : Focus.View :=
  fold_left step es v.

Definition inExtent (t : Zoom.Transform) : Prop :=
  (fst Zoom.scaleExtent <= Zoom.k t <= snd Zoom.scaleExtent)%R.

End Viewport.

(** * Properties *)

(** ** Strings *)

Lemma prefix_iff (q s : string) :
  String.prefix q s = true <-> exists post, s = q +:+ post.
Proof.
  revert s; induction q as [|c q IH]; intros s; simpl.
  - split; [intros _; exists s; reflexivity | intros _; now destruct s].
  - destruct s as [|c' s]; simpl.
    + split; [discriminate | intros [post H]; discriminate].
    + destruct (Ascii.ascii_dec c c') as [->|Hne].
      * rewrite IH. split; intros [post H]; exists post.
        -- now rewrite H.
        -- now inversion H.
      * split; [discriminate | intros [post H]; inversion H; congruence].
Qed.

Lemma includes_iff (s q : string) :
  includes s q = true <-> substring_of q s.
Proof.
  unfold substring_of.
  induction s as [|c s IH]; cbn [includes].
  - rewrite orb_false_r, prefix_iff. split.
    + intros [post H]. exists "", post. exact H.
    + intros [pre [post H]]. destruct pre; simpl in H.
      * exists post. exact H.
      * discriminate.
  - rewrite orb_true_iff, IH, prefix_iff. split.
    + intros [[post H] | [pre [post H]]].
      * exists "", post. exact H.
      * exists (String c pre), post. simpl. now rewrite H.
    + intros [pre [post H]]. destruct pre as [|c' pre]; simpl in H.
      * left. exists post. exact H.
      * right. inversion H. exists pre, post. reflexivity.
Qed.

Lemma arrayIncludes_iff (xs : list string) (t : string) :
  arrayIncludes xs t = true <-> In t xs.
Proof.
  unfold arrayIncludes. rewrite existsb_exists. split.
  - intros [x [Hin Heq]]. apply String.eqb_eq in Heq. now subst.
  - intros Hin. exists t. split; [exact Hin | apply String.eqb_refl].
Qed.

(** ** Search and type filters *)

(** C6: with an empty query and no active type the effect stores the
    whole node list of the loaded graph, so both lists have the same
    length. *)
Theorem filter_without_criteria (g : GraphData.t) (previous : list GraphNode.t) :
  SearchFilter.filterEffect (Some g) "" [] previous = GraphData.nodes g /\
  List.length (SearchFilter.filterEffect (Some g) "" [] previous)
  = List.length (GraphData.nodes g).
Proof.
  assert (H : SearchFilter.filterEffect (Some g) "" [] previous
              = GraphData.nodes g) by reflexivity.
  split; [exact H | now rewrite H].
Qed.

(** The filter on ASCII strings is the general one at the ASCII
    built-ins. *)
Lemma filterNodes_instance (g : GraphData.t) (searchQuery : string)
      (selectedTypes : list string) :
  SearchFilter.filterNodes g searchQuery selectedTypes
  = SearchFilter.filterNodesWith toLowerCase trim g searchQuery selectedTypes.
Proof. reflexivity. Qed.

(** C1, as the code has it, whatever the engine's toLowerCase and trim
    do on the strings at hand: a node of the loaded graph is kept iff
    its type passes the type filter and either the trimmed query is
    empty or the lower-cased query occurs in the lower-cased text made
    of the non-empty fields id, name, canonical_name, paper_id, type,
    entity_type, content joined by single spaces.  The statement field
    is not searched. *)
Theorem text_filter_admits (lower strip : string -> string)
        (g : GraphData.t) (searchQuery : string)
        (selectedTypes : list string) (node : GraphNode.t) :
  In node (SearchFilter.filterNodesWith lower strip g searchQuery
             selectedTypes) <->
  In node (GraphData.nodes g) /\
  (selectedTypes = [] \/ In (GraphNode.type node) selectedTypes) /\
  (strip searchQuery = "" \/
   substring_of (lower searchQuery)
     (lower
        (join " "
           (filterBoolean
              [ Some (GraphNode.id node); GraphNode.name node;
                GraphNode.canonical_name node; GraphNode.paper_id node;
                Some (GraphNode.type node); GraphNode.entity_type node;
                GraphNode.content node ])))).
Proof.
  unfold SearchFilter.filterNodesWith.
  set (byType := if (0 <? List.length selectedTypes)%nat then _ else _).
  assert (HT : In node byType <->
               In node (GraphData.nodes g) /\
               (selectedTypes = [] \/ In (GraphNode.type node) selectedTypes)).
  { subst byType. destruct selectedTypes as [|t ts].
    - simpl. split; [intros H; split; [exact H | now left] | intros [H _]; exact H].
    - change (0 <? List.length (t :: ts))%nat with true. cbv iota.
      rewrite filter_In, arrayIncludes_iff. split.
      + intros [H1 H2]. split; [exact H1 | now right].
      + intros [H1 [H2 | H2]]; [discriminate | now split]. }
  destruct (String.eqb (strip searchQuery) "") eqn:Hq; cbn [negb].
  - apply String.eqb_eq in Hq. rewrite HT. split.
    + intros [H1 H2]. repeat split; try assumption. now left.
    + intros [H1 [H2 _]]. now split.
  - apply String.eqb_neq in Hq.
    rewrite filter_In, includes_iff, HT.
    unfold SearchFilter.searchTextWith. split.
    + intros [[H1 H2] H3]. repeat split; try assumption. now right.
    + intros [H1 [H2 [H3 | H3]]]; [contradiction | now repeat split].
Qed.

(** C1, counterexample: a Result node that mentions SIRT1 only in its
    statement satisfies the filter of the specification and is dropped
    by the effect. *)
Lemma text_filter_skips_statement :
  let r1 := GraphNode.mk "r1" "Result" None None None None None
              (Some "SIRT1 activation extends lifespan")
              Undefined Undefined Undefined Undefined Undefined Undefined
              Undefined in
  SearchFilter.spec_textFilter "sirt1" r1 /\
  ~ In r1 (SearchFilter.filterNodes (GraphData.mk [r1] []) "sirt1" []).
Proof.
  split.
  - exists "r1", " activation extends lifespanresult". reflexivity.
  - intros H. vm_compute in H. exact H.
Qed.

(** ** The ego network *)

Section EgoNetwork.

Variable g : GraphData.t.
Variable nodeId : string.

Lemma visitEdge_ok (acc : Selection.ConnectedNodes) (e : GraphEdge.t) :
  In e (GraphData.edges g) -> Selection.connectionsOk g nodeId acc ->
  Selection.connectionsOk g nodeId (Selection.visitEdge g nodeId acc e).
Proof.
  intros He [Hi Ho]. unfold Selection.visitEdge.
  destruct (String.eqb (GraphEdge.target e) nodeId) eqn:Ht.
  - apply String.eqb_eq in Ht.
    destruct (findById _ (GraphEdge.source e)) as [sourceNode|] eqn:Hf;
      [|now split].
    split; simpl; [|exact Ho].
    apply Forall_app. split; [exact Hi|].
    constructor; [|constructor]. now repeat split.
  - apply String.eqb_neq in Ht.
    destruct (String.eqb (GraphEdge.source e) nodeId) eqn:Hs; [|now split].
    apply String.eqb_eq in Hs.
    destruct (findById _ (GraphEdge.target e)) as [targetNode|] eqn:Hf;
      [|now split].
    split; simpl; [exact Hi|].
    apply Forall_app. split; [exact Ho|].
    constructor; [|constructor]. now repeat split.
Qed.

Lemma fold_visitEdge_ok (es : list GraphEdge.t) :
  forall acc,
    (forall e, In e es -> In e (GraphData.edges g)) ->
    Selection.connectionsOk g nodeId acc ->
    Selection.connectionsOk g nodeId
      (fold_left (Selection.visitEdge g nodeId) es acc).
Proof.
  induction es as [|e es IH]; intros acc Hsub Hacc; simpl; [exact Hacc|].
  apply IH.
  - intros e' He'. apply Hsub. now right.
  - apply visitEdge_ok; [apply Hsub; now left | exact Hacc].
Qed.

Lemma findConnectedNodes_ok :
  Selection.connectionsOk g nodeId
    (Selection.findConnectedNodes (Some g) nodeId).
Proof.
  simpl. apply fold_visitEdge_ok; [auto|].
  split; constructor.
Qed.

End EgoNetwork.

Lemma findById_In (nodes : list GraphNode.t) (i : string) (n : GraphNode.t) :
  findById nodes i = Some n -> In n nodes /\ GraphNode.id n = i.
Proof.
  unfold findById. intros H. apply find_some in H as [H1 H2].
  split; [exact H1 | now apply String.eqb_eq].
Qed.

(** C10: the ego network is computed for every graph and node id (also
    without a graph); every connection it returns pairs an edge of the
    graph with a node of the graph's node list, and an edge whose
    source (for the incoming side) or target (for the outgoing side)
    names no node of the list appears in neither list. *)
Theorem ego_network_drops_dangling_edges
        (g : GraphData.t) (nodeId : string) (e : GraphEdge.t)
        (c : Selection.Connection) :
  let r := Selection.findConnectedNodes (Some g) nodeId in
  (In c (Selection.incoming r ++ Selection.outgoing r) ->
   In (Selection.node c) (GraphData.nodes g) /\
   In (Selection.edge c) (GraphData.edges g)) /\
  ((GraphEdge.target e = nodeId /\
    findById (GraphData.nodes g) (GraphEdge.source e) = None) \/
   (GraphEdge.source e = nodeId /\
    findById (GraphData.nodes g) (GraphEdge.target e) = None) ->
   ~ In e (List.map Selection.edge
             (Selection.incoming r ++ Selection.outgoing r))).
Proof.
  intros r.
  destruct (findConnectedNodes_ok g nodeId) as [Hi Ho].
  fold r in Hi, Ho. rewrite List.Forall_forall in Hi, Ho.
  split.
  - intros Hc. apply in_app_or in Hc as [Hc | Hc].
    + destruct (Hi c Hc) as (He & _ & Hf).
      apply findById_In in Hf. now split.
    + destruct (Ho c Hc) as (He & _ & _ & Hf).
      apply findById_In in Hf. now split.
  - intros Hd Hin. apply in_map_iff in Hin as [c' [<- Hc']].
    apply in_app_or in Hc' as [Hc' | Hc'].
    + destruct (Hi c' Hc') as (_ & Ht & Hf).
      destruct Hd as [[_ Hn] | [Hs Hn]]; [congruence|].
      rewrite Ht, <- Hs in Hn. congruence.
    + destruct (Ho c' Hc') as (_ & Ht & Hs & Hf).
      destruct Hd as [[Ht' _] | [_ Hn]]; congruence.
Qed.

(** C2, at a self-loop: for the graph with the single node A and the
    single edge from A to A, the ego network of A lists the edge as
    incoming and has no outgoing connection, although A is the source
    of the edge. *)
Theorem self_loop_is_not_outgoing :
  let a := GraphNode.plain "A" "Paper" in
  let loop := GraphEdge.mk "A" "A" None None in
  let r := Selection.findConnectedNodes
             (Some (GraphData.mk [a] [loop])) "A" in
  GraphEdge.source loop = "A" /\
  Selection.incoming r = [Selection.mkConnection a loop] /\
  Selection.outgoing r = [].
Proof. repeat split. Qed.

Lemma incoming_fold (g : GraphData.t) (nodeId : string)
      (es : list GraphEdge.t) (acc : Selection.ConnectedNodes) :
  Selection.incoming (fold_left (Selection.visitEdge g nodeId) es acc)
  = (Selection.incoming acc ++
    flat_map
      (fun e =>
         if String.eqb (GraphEdge.target e) nodeId then
           match findById (GraphData.nodes g) (GraphEdge.source e) with
           | Some n => [Selection.mkConnection n e]
           | None => []
           end
         else [])
      es)%list.
Proof.
  revert acc. induction es as [|e es IH]; intros acc; simpl.
  - now rewrite app_nil_r.
  - rewrite IH. unfold Selection.visitEdge.
    destruct (String.eqb (GraphEdge.target e) nodeId).
    + destruct (findById _ (GraphEdge.source e)); simpl;
        [now rewrite <- app_assoc | reflexivity].
    + simpl. destruct (String.eqb (GraphEdge.source e) nodeId);
        [destruct (findById _ (GraphEdge.target e))|]; reflexivity.
Qed.

(** The incoming list is, in edge order, exactly the pairs (source
    node, edge) of the edges that end in the node and whose source is a
    node of the graph. *)
Lemma incoming_exact (g : GraphData.t) (nodeId : string) :
  Selection.incoming (Selection.findConnectedNodes (Some g) nodeId)
  = flat_map
      (fun e =>
         if String.eqb (GraphEdge.target e) nodeId then
           match findById (GraphData.nodes g) (GraphEdge.source e) with
           | Some n => [Selection.mkConnection n e]
           | None => []
           end
         else [])
      (GraphData.edges g).
Proof. simpl. now rewrite incoming_fold. Qed.

(** The outgoing list is, in edge order, exactly the pairs (target
    node, edge) of the edges that start at the node, do not end in it,
    and whose target is a node of the graph. *)
Lemma outgoing_fold (g : GraphData.t) (nodeId : string)
      (es : list GraphEdge.t) (acc : Selection.ConnectedNodes) :
  Selection.outgoing (fold_left (Selection.visitEdge g nodeId) es acc)
  = (Selection.outgoing acc ++
    flat_map
      (fun e =>
         if negb (String.eqb (GraphEdge.target e) nodeId)
            && String.eqb (GraphEdge.source e) nodeId then
           match findById (GraphData.nodes g) (GraphEdge.target e) with
           | Some n => [Selection.mkConnection n e]
           | None => []
           end
         else [])
      es)%list.
Proof.
  revert acc. induction es as [|e es IH]; intros acc; simpl.
  - now rewrite app_nil_r.
  - rewrite IH. unfold Selection.visitEdge.
    destruct (String.eqb (GraphEdge.target e) nodeId); simpl.
    + destruct (findById _ (GraphEdge.source e)); reflexivity.
    + destruct (String.eqb (GraphEdge.source e) nodeId); simpl;
        [|reflexivity].
      destruct (findById _ (GraphEdge.target e)); simpl;
        [now rewrite <- app_assoc | reflexivity].
Qed.

(** ** Rendering *)

(** C3, as the code has it: the no-data screen is shown exactly when
    nothing is loading, no error is set and no graph document is held;
    a loaded graph without nodes gets the graph screen, and when it has
    no edges either, with the canvas mounted, a simulation is created
    over the empty node list. *)
Theorem no_data_screen_iff_no_graph
        (loading : bool) (error : option string)
        (graphData : option GraphData.t)
        (edges : list GraphEdge.t) (clientWidth clientHeight : JsNum) :
  (Render.render loading error graphData = Render.NoDataScreen <->
   loading = false /\ truthy error = false /\ graphData = None) /\
  Render.render false None (Some (GraphData.mk [] edges))
  = Render.GraphScreen (GraphData.mk [] edges) /\
  exists forces,
    Render.initSimulation (Some (GraphData.mk [] [])) true
      clientWidth clientHeight
    = Render.Started (Render.mkSimulation [] [] forces).
Proof.
  split; [|split; [reflexivity | eexists; reflexivity]].
  unfold Render.render.
  destruct loading; [split; [discriminate | intros [H _]; discriminate]|].
  destruct (truthy error);
    [split; [discriminate | intros (_ & H & _); discriminate]|].
  destruct graphData; split; try discriminate; auto.
  intros (_ & _ & H). discriminate.
Qed.

(** C3, counterexample: the loaded graph without nodes and edges is
    not given the no-data screen, and its simulation is created. *)
Lemma empty_graph_is_rendered :
  Render.render false None (Some (GraphData.mk [] [])) <> Render.NoDataScreen /\
  Render.initSimulation (Some (GraphData.mk [] [])) true (Num 1200) (Num 800)
  <> Render.NotStarted.
Proof. split; discriminate. Qed.

(** A graph without nodes that has an edge makes the link force throw
    on the source of its first edge. *)
Lemma empty_graph_with_edge_fails (e : GraphEdge.t) (edges : list GraphEdge.t)
      (clientWidth clientHeight : JsNum) :
  Render.initSimulation (Some (GraphData.mk [] (e :: edges))) true
    clientWidth clientHeight
  = Render.LinkError (GraphEdge.source e).
Proof. reflexivity. Qed.

(** With every edge end naming a node, the effect creates the
    simulation over all nodes and edges. *)
Lemma sound_graph_starts (g : GraphData.t) (clientWidth clientHeight : JsNum) :
  (forall e, In e (GraphData.edges g) ->
             findById (GraphData.nodes g) (GraphEdge.source e) <> None /\
             findById (GraphData.nodes g) (GraphEdge.target e) <> None) ->
  exists forces,
    Render.initSimulation (Some g) true clientWidth clientHeight
    = Render.Started
        (Render.mkSimulation (GraphData.nodes g) (GraphData.edges g) forces).
Proof.
  intros Hsound. unfold Render.initSimulation. cbn [negb].
  rewrite !map_id.
  assert (Hm : Render.missingEnd (GraphData.nodes g) (GraphData.edges g)
               = None).
  { induction (GraphData.edges g) as [|e es IH]; [reflexivity|].
    simpl. destruct (Hsound e (or_introl eq_refl)) as [Hs Ht].
    destruct (findById _ (GraphEdge.source e)); [|congruence].
    destruct (findById _ (GraphEdge.target e)); [|congruence].
    apply IH. intros e' He'. apply Hsound. now right. }
  rewrite Hm. eexists. reflexivity.
Qed.

(** C10, on a graph with one sound and two dangling edges at B: the
    connection through the sound edge names a node of the graph, and
    the edge from the unknown X is in neither list. *)
Lemma ego_network_drops_dangling_edges_witness :
  let a := GraphNode.plain "A" "Paper" in
  let b := GraphNode.plain "B" "Entity" in
  let ab := GraphEdge.mk "A" "B" None None in
  let xb := GraphEdge.mk "X" "B" None None in
  let by_ := GraphEdge.mk "B" "Y" None None in
  let g := GraphData.mk [a; b] [ab; xb; by_] in
  let r := Selection.findConnectedNodes (Some g) "B" in
  r = Selection.mkConnected [Selection.mkConnection a ab] [] /\
  In a (GraphData.nodes g) /\
  ~ In xb (List.map Selection.edge
             (Selection.incoming r ++ Selection.outgoing r)).
Proof.
  intros a b ab xb by_ g r.
  destruct (ego_network_drops_dangling_edges g "B" xb
              (Selection.mkConnection a ab)) as [H1 H2].
  split; [reflexivity|]. split.
  - apply H1. left. reflexivity.
  - apply H2. left. split; reflexivity.
Defined.

(** ** Dragging *)

Lemma run_app (s : Drag.State) (es1 es2 : list Drag.Event) :
  Drag.run s (es1 ++ es2) = Drag.run (Drag.run s es1) es2.
Proof. unfold Drag.run. apply fold_left_app. Qed.

Lemma dragended_pin (active : nat) (s : Drag.State) :
  GraphNode.fx (Drag.d (Drag.dragended active s)) = Null /\
  GraphNode.fy (Drag.d (Drag.dragended active s)) = Null /\
  GraphNode.x (Drag.d (Drag.dragended active s)) = GraphNode.x (Drag.d s) /\
  GraphNode.y (Drag.d (Drag.dragended active s)) = GraphNode.y (Drag.d s).
Proof. unfold Drag.dragended. destruct (active =? 0)%nat; now simpl. Qed.

(** Ticks leave a pinned node pinned, and the first of them moves it
    onto the pin. *)
Lemma ticks_follow_pin (ticks : list Drag.Event) (s : Drag.State) (ex ey : R) :
  forallb Drag.isTick ticks = true ->
  GraphNode.fx (Drag.d s) = Num ex -> GraphNode.fy (Drag.d s) = Num ey ->
  let s' := Drag.run s ticks in
  GraphNode.fx (Drag.d s') = Num ex /\ GraphNode.fy (Drag.d s') = Num ey /\
  (ticks <> [] ->
   GraphNode.x (Drag.d s') = Num ex /\ GraphNode.y (Drag.d s') = Num ey).
Proof.
  revert s. induction ticks as [|e ticks IH]; intros s Hall Hx Hy; simpl.
  - split; [exact Hx|]. split; [exact Hy|]. intros Hn. now elim Hn.
  - simpl in Hall. apply andb_prop in Hall as [He Hall].
    destruct e as [| | |px py qx qy]; try discriminate. simpl.
    set (s1 := Drag.mkState _ _ _).
    assert (H1 : GraphNode.fx (Drag.d s1) = Num ex /\
                 GraphNode.fy (Drag.d s1) = Num ey /\
                 GraphNode.x (Drag.d s1) = Num ex /\
                 GraphNode.y (Drag.d s1) = Num ey).
    { subst s1. simpl. unfold Drag.tickAxis. rewrite Hx, Hy. now simpl. }
    destruct H1 as (Hx1 & Hy1 & Hpx & Hpy).
    destruct (IH s1 Hall Hx1 Hy1) as (Hx2 & Hy2 & Hp).
    split; [exact Hx2|]. split; [exact Hy2|]. intros _.
    destruct ticks as [|e' ticks'].
    + split; [exact Hpx | exact Hpy].
    + apply Hp. discriminate.
Qed.

(** C4, as the code has it: after the end event of any drag the pin of
    the node is null; the handlers only ever write the pin, so the
    position equals the coordinate of the last drag-move event when at
    least one tick of the simulation ran between that move and the
    end. *)
Theorem drag_end_state (s0 : Drag.State) (es : list Drag.Event) (active : nat) :
  let s := Drag.run s0 (es ++ [Drag.DragEnd active]) in
  GraphNode.fx (Drag.d s) = Null /\ GraphNode.fy (Drag.d s) = Null /\
  forall before ex ey ticks,
    es = (before ++ Drag.DragMove ex ey :: ticks)%list ->
    ticks <> [] -> forallb Drag.isTick ticks = true ->
    GraphNode.x (Drag.d s) = Num ex /\ GraphNode.y (Drag.d s) = Num ey.
Proof.
  intros s. subst s. rewrite run_app.
  change (Drag.run (Drag.run s0 es) [Drag.DragEnd active])
    with (Drag.dragended active (Drag.run s0 es)).
  destruct (dragended_pin active (Drag.run s0 es)) as (Hfx & Hfy & Hx & Hy).
  split; [exact Hfx|]. split; [exact Hfy|].
  intros before ex ey ticks -> Hne Hall.
  rewrite Hx, Hy.
  rewrite run_app.
  change (Drag.run (Drag.run s0 before) (Drag.DragMove ex ey :: ticks))
    with (Drag.run (Drag.dragged ex ey (Drag.run s0 before)) ticks).
  destruct (ticks_follow_pin ticks (Drag.dragged ex ey (Drag.run s0 before))
              ex ey Hall eq_refl eq_refl) as (_ & _ & Hp).
  now apply Hp.
Qed.

(** C4, on a drag of a node resting at the origin: start, a move to
    (5, 7), one tick, end. *)
Lemma drag_end_state_witness :
  let n := GraphNode.set_pos (Num 0) (Num 0) (GraphNode.plain "A" "Paper") in
  let s := Drag.run (Drag.mkState n 0 false)
             ([Drag.DragStart 0; Drag.DragMove 5 7; Drag.Tick 1 1 0 0]
                ++ [Drag.DragEnd 0]) in
  GraphNode.fx (Drag.d s) = Null /\ GraphNode.fy (Drag.d s) = Null /\
  GraphNode.x (Drag.d s) = Num 5 /\ GraphNode.y (Drag.d s) = Num 7.
Proof.
  intros n s.
  destruct (drag_end_state (Drag.mkState n 0 false)
              [Drag.DragStart 0; Drag.DragMove 5 7; Drag.Tick 1 1 0 0] 0)
    as (Hfx & Hfy & Hp).
  split; [exact Hfx|]. split; [exact Hfy|].
  apply (Hp [Drag.DragStart 0] 5%R 7%R [Drag.Tick 1 1 0 0]);
    [reflexivity | discriminate | reflexivity].
Defined.

(** C4, counterexample: start, a move to (5, 7) and the end with no
    tick in between leave the node where it was, at the origin. *)
Lemma drag_without_tick_keeps_position :
  let n := GraphNode.set_pos (Num 0) (Num 0) (GraphNode.plain "A" "Paper") in
  let s := Drag.run (Drag.mkState n 0 false)
             [Drag.DragStart 0; Drag.DragMove 5 7; Drag.DragEnd 0] in
  GraphNode.x (Drag.d s) = Num 0 /\ GraphNode.y (Drag.d s) = Num 0 /\
  GraphNode.x (Drag.d s) <> Num 5.
Proof.
  intros n s. split; [reflexivity|]. split; [reflexivity|].
  intros Hx. change (Num 0 = Num 5) in Hx. injection Hx. lra.
Qed.

(** ** Zoom *)

(** C7: whatever the current transform and whatever factor and
    translation a user gesture asks for, the scale of the transform the
    viewport shows afterwards lies between 0.1 and 4. *)
Theorem user_zoom_scale_clamped (current : Zoom.Transform) (factor dx dy : R) :
  (1 / 10 <= Zoom.k (Zoom.viewportAfterGesture current factor dx dy) <= 4)%R.
Proof.
  unfold Zoom.viewportAfterGesture, Zoom.onZoom, Zoom.userZoom,
    Zoom.applyUserPanZoom, Zoom.scaleExtent. simpl.
  split.
  - apply Rmax_l.
  - apply Rmax_lub; [lra | apply Rmin_l].
Qed.

(** ** Focus requests *)

Lemma findById_absent (nodes : list GraphNode.t) (nodeId : string) :
  Focus.idAbsent nodeId nodes -> findById nodes nodeId = None.
Proof.
  intros Habs. unfold findById.
  destruct (List.find _ nodes) as [n|] eqn:Hf; [|reflexivity].
  apply find_some in Hf as [Hin Heq]. apply String.eqb_eq in Heq.
  now elim (Habs n Hin).
Qed.

Lemma findIndex_none (p : GraphNode.t -> bool) (nodes : list GraphNode.t) :
  (forall n, In n nodes -> p n = false) -> Focus.findIndex p nodes = None.
Proof.
  induction nodes as [|n r IH]; intros Hp; simpl; [reflexivity|].
  rewrite (Hp n (or_introl eq_refl)), IH; [reflexivity|].
  intros m Hm. apply Hp. now right.
Qed.

Lemma matchesFocus_absent (f : string) (nodes : list GraphNode.t) :
  Focus.idAbsent f nodes -> Focus.paperIdAbsent f nodes ->
  forall n, In n nodes -> Focus.matchesFocus f n = false.
Proof.
  intros Hid Hpaper n Hin. unfold Focus.matchesFocus.
  apply orb_false_intro.
  - apply String.eqb_neq. now apply Hid.
  - specialize (Hpaper n Hin). destruct (GraphNode.paper_id n) as [p|];
      [|reflexivity].
    apply String.eqb_neq. congruence.
Qed.

Lemma fireMany_idle (count : nat) (v : Focus.View) :
  Focus.timers v = [] -> Focus.fireMany count v = v.
Proof.
  intros Hidle. induction count as [|c IH]; simpl; [reflexivity|].
  unfold Focus.fire. now rewrite Hidle.
Qed.

Lemma fire_search_unpositioned (v : Focus.View) (targetNode : GraphNode.t)
      (attempts delay : nat) :
  Focus.positioned targetNode = false ->
  Focus.timers v = [] ->
  Focus.fire
    (Focus.setTimeout (Focus.TryFocusSearch None targetNode attempts) delay v)
  = if (S attempts <? 8)%nat
    then Focus.setTimeout
           (Focus.TryFocusSearch None targetNode (S attempts)) 250 v
    else v.
Proof.
  intros Hp Ht.
  destruct v as [gd svg zb sn cw ch sel sfc slg tr tm].
  cbn [Focus.timers] in Ht. subst tm.
  unfold Focus.fire, Focus.setTimeout, Focus.dropTimer, Focus.tryFocusSearch,
    Focus.nodeToFocus.
  cbn [Focus.timers Focus.graphData Focus.svgMounted Focus.zoomBehavior
       Focus.simulationNodes Focus.clientWidth Focus.clientHeight
       Focus.selectedNode Focus.showFullContent Focus.showLocalGraph
       Focus.transform app tl].
  rewrite Hp. reflexivity.
Qed.

(** The polling of the search panel: a target that never gets a
    position is looked at eight times, 250 ms apart after the first
    look, and then given up, leaving the view as it was. *)
Lemma search_polling_gives_up (v : Focus.View) (targetNode : GraphNode.t) :
  Focus.positioned targetNode = false ->
  Focus.timers v = [] ->
  let armed :=
    Focus.setTimeout (Focus.TryFocusSearch None targetNode 0) 100 v in
  Focus.timers (Focus.fireMany 7 armed)
  = [(250%nat, Focus.TryFocusSearch None targetNode 7)] /\
  Focus.fireMany 8 armed = v.
Proof.
  intros Hp Ht armed. subst armed.
  cbn [Focus.fireMany].
  repeat (rewrite (fire_search_unpositioned _ _ _ _ Hp Ht);
          cbn [Nat.ltb Nat.leb]).
  split; [|reflexivity].
  unfold Focus.setTimeout. cbn [Focus.timers]. now rewrite Ht.
Qed.

Lemma fire_mount_unpositioned (v : Focus.View) (i : nat) (width height : R)
      (attempts delay : nat) :
  match Focus.clone v i with
  | Some n => Focus.positioned n
  | None => false
  end = false ->
  Focus.timers v = [] ->
  Focus.fire
    (Focus.setTimeout (Focus.TryFocusMount i width height attempts) delay v)
  = if (S attempts <? Focus.maxAttempts)%nat
    then Focus.setTimeout
           (Focus.TryFocusMount i width height (S attempts)) 200 v
    else v.
Proof.
  intros Hp Ht.
  destruct v as [gd svg zb sn cw ch sel sfc slg tr tm].
  cbn [Focus.timers] in Ht. subst tm.
  unfold Focus.clone in Hp. cbn [Focus.simulationNodes] in Hp.
  unfold Focus.fire, Focus.setTimeout, Focus.dropTimer, Focus.tryFocusMount,
    Focus.clone.
  cbn [Focus.timers Focus.graphData Focus.svgMounted Focus.zoomBehavior
       Focus.simulationNodes Focus.clientWidth Focus.clientHeight
       Focus.selectedNode Focus.showFullContent Focus.showLocalGraph
       Focus.transform app tl].
  rewrite Hp. reflexivity.
Qed.

(** The polling of the page-address focus: ten looks, 200 ms apart
    after the first. *)
Lemma mount_polling_gives_up (v : Focus.View) (i : nat) (width height : R) :
  match Focus.clone v i with
  | Some n => Focus.positioned n
  | None => false
  end = false ->
  Focus.timers v = [] ->
  let armed :=
    Focus.setTimeout (Focus.TryFocusMount i width height 0) 300 v in
  Focus.timers (Focus.fireMany 9 armed)
  = [(200%nat, Focus.TryFocusMount i width height 9)] /\
  Focus.fireMany 10 armed = v.
Proof.
  intros Hp Ht armed. subst armed.
  cbn [Focus.fireMany].
  unfold Focus.maxAttempts in *.
  repeat (rewrite (fire_mount_unpositioned _ _ _ _ _ _ Hp Ht);
          unfold Focus.maxAttempts; cbn [Nat.ltb Nat.leb]).
  split; [|reflexivity].
  unfold Focus.setTimeout. cbn [Focus.timers]. now rewrite Ht.
Qed.

(** C8, as the code has it: a focus request from the search panel for
    an id that no node of the loaded graph carries returns the view as
    it was (selection, panel flags, transform, pending timers); so does
    the focus of the page address when the id is neither the id nor the
    paper_id of a node of the simulation.  No polling is started, hence
    with no timer pending before, the view is still the same after any
    number of timer rounds. *)
Theorem focus_on_absent_id (nodeId : string) (width height : R)
        (v : Focus.View) :
  ((forall g, Focus.graphData v = Some g ->
              Focus.idAbsent nodeId (GraphData.nodes g)) ->
   Focus.focusOnNodeFromSearch nodeId v = v /\
   (Focus.timers v = [] ->
    forall count,
      Focus.fireMany count (Focus.focusOnNodeFromSearch nodeId v) = v)) /\
  ((forall nodes, Focus.simulationNodes v = Some nodes ->
                  Focus.idAbsent nodeId nodes /\
                  Focus.paperIdAbsent nodeId nodes) ->
   Focus.focusOnMount (Some nodeId) width height v = v /\
   (Focus.timers v = [] ->
    forall count,
      Focus.fireMany count (Focus.focusOnMount (Some nodeId) width height v)
      = v)).
Proof.
  split.
  - intros Habs.
    assert (H : Focus.focusOnNodeFromSearch nodeId v = v).
    { unfold Focus.focusOnNodeFromSearch.
      destruct (Focus.graphData v) as [g|] eqn:Hg; [|reflexivity].
      destruct (negb (Focus.svgMounted v)); [reflexivity|].
      now rewrite (findById_absent _ _ (Habs g eq_refl)). }
    split; [exact H|]. intros Hidle count. rewrite H.
    now apply fireMany_idle.
  - intros Habs.
    assert (H : Focus.focusOnMount (Some nodeId) width height v = v).
    { unfold Focus.focusOnMount.
      destruct (truthy (Some nodeId)); [|reflexivity].
      destruct (Focus.simulationNodes v) as [nodes|] eqn:Hn; [|reflexivity].
      destruct (Habs nodes eq_refl) as [Hid Hpaper].
      now rewrite (findIndex_none _ _ (matchesFocus_absent _ _ Hid Hpaper)). }
    split; [exact H|]. intros Hidle count. rewrite H.
    now apply fireMany_idle.
Qed.

(** C8, counterexample: the page address asks for the focus p9; no node
    has the id p9, the Result node r1 has it as paper_id, and r1 becomes
    the selection, with a polling timer pending. *)
Lemma focus_on_paper_id_selects :
  let r1 := GraphNode.mk "r1" "Result" None None None None (Some "p9") None
              Undefined Undefined Undefined Undefined Undefined Undefined
              Undefined in
  let v := Focus.mkView (Some (GraphData.mk [r1] [])) true true (Some [r1])
             (Num 1200) (Num 800) None false false Zoom.zoomIdentity [] in
  Focus.idAbsent "p9" [r1] /\
  Focus.selectedNode (Focus.focusOnMount (Some "p9") 1200 800 v) = Some r1 /\
  Focus.selectedNode (Focus.focusOnMount (Some "p9") 1200 800 v)
  <> Focus.selectedNode v.
Proof.
  intros r1 v. split.
  - intros n [<- | []]. discriminate.
  - split; [reflexivity | discriminate].
Qed.

(** C8, on a view of the graph with the single node A: the search
    panel and the page address ask for the unknown id zz. *)
Lemma focus_on_absent_id_witness :
  let a := GraphNode.plain "A" "Paper" in
  let v := Focus.mkView (Some (GraphData.mk [a] [])) true true (Some [a])
             (Num 1200) (Num 800) None false false Zoom.zoomIdentity [] in
  Focus.focusOnNodeFromSearch "zz" v = v /\
  Focus.fireMany 10 (Focus.focusOnNodeFromSearch "zz" v) = v /\
  Focus.focusOnMount (Some "zz") 1200 800 v = v /\
  Focus.fireMany 10 (Focus.focusOnMount (Some "zz") 1200 800 v) = v.
Proof.
  intros a v.
  destruct (focus_on_absent_id "zz" 1200 800 v) as [Hs Hm].
  assert (Ha : Focus.idAbsent "zz" [a])
    by (intros n [<- | []]; discriminate).
  assert (Hp : Focus.paperIdAbsent "zz" [a])
    by (intros n [<- | []]; discriminate).
  destruct Hs as [Hs1 Hs2].
  { intros g Hg. injection Hg as <-. exact Ha. }
  destruct Hm as [Hm1 Hm2].
  { intros nodes Hn. injection Hn as <-. now split. }
  split; [exact Hs1|]. split; [exact (Hs2 eq_refl 10%nat)|].
  split; [exact Hm1 | exact (Hm2 eq_refl 10%nat)].
Defined.

(** ** The local graph: fresh copies *)

Section LocalGraphStore.

Import LocalGraph.

Lemma alloc_spec (s s' : store) (n : GraphNode.t) (l : loc) :
  alloc s n = (s', l) -> s !! l = None /\ s' = <[l := n]> s.
Proof.
  unfold alloc. intros H. injection H as <- <-.
  split; [|reflexivity].
  apply not_elem_of_dom. apply is_fresh.
Qed.

Lemma allocAll_spec (ns : list GraphNode.t) :
  forall (s s' : store) (ls : list loc),
    allocAll s ns = (s', ls) ->
    (forall l, l ∈ ls -> s !! l = None) /\
    (forall l v, s !! l = Some v -> s' !! l = Some v) /\
    (forall i l, ls !! i = Some l -> s' !! l = ns !! i) /\
    List.length ls = List.length ns.
Proof.
  induction ns as [|n r IH]; intros s s' ls H; cbn [allocAll] in H.
  - injection H as <- <-. repeat split.
    + intros l Hl. inversion Hl.
    + auto.
    + intros i l Hl. destruct i; discriminate.
  - destruct (alloc s n) as [s1 l0] eqn:Ha.
    destruct (allocAll s1 r) as [s2 ls'] eqn:Hr.
    injection H as <- <-.
    apply alloc_spec in Ha as [Hfresh ->].
    destruct (IH _ _ _ Hr) as (Hnew & Hkeep & Hidx & Hlen).
    repeat split.
    + intros l Hl. apply elem_of_cons in Hl as [-> | Hl]; [exact Hfresh|].
      specialize (Hnew l Hl).
      destruct (decide (l0 = l)) as [<- | Hne].
      * rewrite lookup_insert_eq in Hnew. discriminate.
      * now rewrite lookup_insert_ne in Hnew.
    + intros l v Hl. apply Hkeep.
      rewrite lookup_insert_ne; [exact Hl|].
      intros ->. rewrite Hfresh in Hl. discriminate.
    + intros i l Hl. destruct i as [|i]; simpl in *.
      * injection Hl as <-. apply Hkeep. apply lookup_insert_eq.
      * now apply Hidx.
    + simpl. now rewrite Hlen.
Qed.

Lemma writeAll_frame (ls : list loc) :
  forall (ns : list GraphNode.t) (s : store) (k : loc),
    k ∉ ls -> writeAll s ls ns !! k = s !! k.
Proof.
  induction ls as [|l ls IH]; intros ns s k Hk; simpl; [reflexivity|].
  destruct ns as [|n ns]; [reflexivity|].
  apply not_elem_of_cons in Hk as [Hne Hk].
  rewrite IH by exact Hk. now apply lookup_insert_ne.
Qed.

Lemma findLoc_elem (s : store) (p : GraphNode.t -> bool) (ls : list loc)
      (l : loc) :
  findLoc s p ls = Some l -> l ∈ ls.
Proof.
  induction ls as [|l0 ls IH]; simpl; [discriminate|].
  destruct (s !! l0) as [n|].
  - destruct (p n).
    + intros H. injection H as <-. apply list_elem_of_here.
    + intros H. apply list_elem_of_further. now apply IH.
  - intros H. apply list_elem_of_further. now apply IH.
Qed.

Lemma releasePin_frame (s : store) (p : Panel) (k : loc) :
  k ∉ nodesCopy p -> releasePin s p !! k = s !! k.
Proof.
  intros Hk. unfold releasePin.
  destruct (s !! selectedNode p) as [selected|]; [|reflexivity].
  destruct (findLoc s _ (nodesCopy p)) as [c|] eqn:Hf; [|reflexivity].
  destruct (s !! c) as [n|]; [|reflexivity].
  apply lookup_insert_ne. intros ->.
  apply Hk. now apply findLoc_elem in Hf.
Qed.

Lemma onTick_frame (forces : list GraphNode.t -> list GraphNode.t)
      (s : store) (p : Panel) (k : loc) :
  k ∉ nodesCopy p -> onTick forces s p !! k = s !! k.
Proof.
  intros Hk. unfold onTick.
  destruct (readAll s (nodesCopy p)) as [values|]; [|reflexivity].
  destruct (readAll _ (nodesCopy p)) as [moved|];
    now rewrite !writeAll_frame by exact Hk.
Qed.

Lemma step_frame (s : store) (p : Panel) (e : Event) (k : loc) :
  k ∉ nodesCopy p ->
  fst (step (s, p) e) !! k = s !! k /\
  nodesCopy (snd (step (s, p) e)) = nodesCopy p.
Proof.
  intros Hk. destruct e as [forces| |]; simpl.
  - destruct (running p); simpl; split; try reflexivity.
    now apply onTick_frame.
  - split; [now apply releasePin_frame | reflexivity].
  - split; reflexivity.
Qed.

Lemma run_frame (es : list Event) :
  forall (s : store) (p : Panel) (k : loc),
    k ∉ nodesCopy p -> fst (run (s, p) es) !! k = s !! k.
Proof.
  induction es as [|e es IH]; intros s p k Hk; [reflexivity|].
  change (run (s, p) (e :: es)) with (run (step (s, p) e) es).
  destruct (step_frame s p e k Hk) as [H1 H2].
  destruct (step (s, p) e) as [s1 p1]. simpl in H1, H2.
  rewrite IH by (rewrite H2; exact Hk). exact H1.
Qed.

Lemma readAll_total (s : store) (ls : list loc) :
  (forall l, l ∈ ls -> is_Some (s !! l)) -> is_Some (readAll s ls).
Proof.
  induction ls as [|l ls IH]; intros H; simpl; [now eexists|].
  destruct (H l (list_elem_of_here _ _)) as [n ->].
  destruct IH as [ns ->]; [|now eexists].
  intros l' Hl'. apply H. now apply list_elem_of_further.
Qed.

(** The panel is created whenever the selection and the connected
    nodes are objects of the store. *)
Lemma createLocalGraph_total (s : store) (selectedNode : option loc)
      (svgMounted showLocalGraph : bool)
      (incoming outgoing : list Connection) (panelWidth : R) :
  (forall sel l, selectedNode = Some sel ->
                 l ∈ localNodesOf sel incoming outgoing ->
                 is_Some (s !! l)) ->
  is_Some (createLocalGraph s selectedNode svgMounted showLocalGraph
             incoming outgoing panelWidth).
Proof.
  intros Hobj. unfold createLocalGraph.
  destruct selectedNode as [sel|]; [|now eexists].
  destruct (negb svgMounted || negb showLocalGraph); [now eexists|].
  destruct (panelSize panelWidth) as [w h].
  destruct (List.length _ <=? 1)%nat; [now eexists|].
  destruct (readAll_total s (localNodesOf sel incoming outgoing))
    as [values ->]; [intros l Hl; exact (Hobj sel l eq_refl Hl)|].
  destruct (Hobj sel sel eq_refl (list_elem_of_here _ _)) as [selected ->].
  destruct (allocAll s _) as [s' copies]. now eexists.
Qed.

End LocalGraphStore.

(** C9: every object that exists when the local graph is created, a
    node of the graph document or a clone of the main simulation alike,
    is the same object afterwards, whatever ticks, pin release and stop
    the local simulation goes through: these write to the copies made
    for the panel only. *)
Theorem local_graph_leaves_graph_nodes
        (s : gmap nat GraphNode.t) (selectedNode : option LocalGraph.loc)
        (svgMounted showLocalGraph : bool)
        (incoming outgoing : list LocalGraph.Connection) (panelWidth : R)
        (created : gmap nat GraphNode.t * LocalGraph.Outcome)
        (es : list LocalGraph.Event) (l : LocalGraph.loc) (n : GraphNode.t) :
  LocalGraph.createLocalGraph s selectedNode svgMounted showLocalGraph
    incoming outgoing panelWidth = Some created ->
  s !! l = Some n ->
  LocalGraph.storeAfter created es !! l = Some n.
Proof.
  unfold LocalGraph.createLocalGraph. intros Hc Hl.
  destruct selectedNode as [sel|];
    [|injection Hc as <-; exact Hl].
  destruct (negb svgMounted || negb showLocalGraph);
    [injection Hc as <-; exact Hl|].
  destruct (LocalGraph.panelSize panelWidth) as [w h].
  destruct (List.length _ <=? 1)%nat; [injection Hc as <-; exact Hl|].
  destruct (LocalGraph.readAll s _) as [values|]; [|discriminate].
  destruct (s !! sel) as [selected|]; [|discriminate].
  destruct (LocalGraph.allocAll s _) as [s' copies] eqn:Ha.
  injection Hc as <-.
  apply allocAll_spec in Ha as (Hnew & Hkeep & _ & _).
  unfold LocalGraph.storeAfter.
  rewrite run_frame.
  - now apply Hkeep.
  - simpl. intros Hin. apply Hnew in Hin. congruence.
Qed.

(** C9, on a store holding the nodes A and B, with B an outgoing
    neighbour of the selected A: the panel is created, the forces move
    every copy to (3, 4), the pin is released and the simulation is
    stopped; A and B are as before. *)
Lemma local_graph_leaves_graph_nodes_witness :
  let a := GraphNode.plain "A" "Paper" in
  let b := GraphNode.plain "B" "Entity" in
  let s : gmap nat GraphNode.t := <[0%nat := a]> (<[1%nat := b]> ∅) in
  let out := [LocalGraph.mkConnection 1 (GraphEdge.mk "A" "B" None None)] in
  let es := [LocalGraph.Tick (List.map (GraphNode.set_pos (Num 3) (Num 4)));
             LocalGraph.ReleasePin; LocalGraph.Stop] in
  exists created,
    LocalGraph.createLocalGraph s (Some 0%nat) true true [] out 384
    = Some created /\
    LocalGraph.storeAfter created es !! 0%nat = Some a /\
    LocalGraph.storeAfter created es !! 1%nat = Some b.
Proof.
  intros a b s out es.
  destruct (createLocalGraph_total s (Some 0%nat) true true [] out 384)
    as [created Hc].
  { intros sel l Hsel Hl. injection Hsel as <-.
    apply elem_of_cons in Hl as [-> | Hl]; [now eexists|].
    apply list_elem_of_singleton in Hl as ->. now eexists. }
  exists created. split; [exact Hc|]. split.
  - apply (local_graph_leaves_graph_nodes _ _ _ _ _ _ _ _ es 0%nat a Hc).
    reflexivity.
  - apply (local_graph_leaves_graph_nodes _ _ _ _ _ _ _ _ es 1%nat b Hc).
    reflexivity.
Defined.

(** ** The local graph: starting positions *)

Lemma mapi_from_lookup {A B : Type} (f : nat -> A -> B) (l : list A) :
  forall (i j : nat),
    LocalGraph.mapi_from f i l !! j = f (i + j)%nat <$> (l !! j).
Proof.
  induction l as [|a l IH]; intros i j; [now destruct j|].
  destruct j as [|j]; simpl.
  - now rewrite Nat.add_0_r.
  - rewrite IH. now rewrite Nat.add_succ_r.
Qed.

Lemma readAll_lookup (s : gmap nat GraphNode.t) (ls : list nat) :
  forall values,
    LocalGraph.readAll s ls = Some values ->
    List.length values = List.length ls /\
    forall j l, ls !! j = Some l -> values !! j = s !! l.
Proof.
  induction ls as [|l0 ls IH]; intros values H; simpl in H.
  - injection H as <-. split; [reflexivity|]. intros j l Hj. now destruct j.
  - destruct (s !! l0) as [n|] eqn:Hn; [|discriminate].
    destruct (LocalGraph.readAll s ls) as [ns|]; [|discriminate].
    injection H as <-. destruct (IH ns eq_refl) as [Hlen Hidx].
    split; [simpl; now rewrite Hlen|].
    intros j l Hj. destruct j as [|j]; simpl in *.
    + injection Hj as <-. now rewrite Hn.
    + now apply Hidx.
Qed.

(** The objects of a started panel are the starting copies of the
    local nodes, in the order of the local node list. *)
Lemma createLocalGraph_copies
      (s s' : gmap nat GraphNode.t) (sel : nat)
      (incoming outgoing : list LocalGraph.Connection) (panelWidth : R)
      (p : LocalGraph.Panel) (selected : GraphNode.t) :
  LocalGraph.createLocalGraph s (Some sel) true true incoming outgoing
    panelWidth = Some (s', LocalGraph.Started p) ->
  s !! sel = Some selected ->
  forall j l d,
    LocalGraph.localNodesOf sel incoming outgoing !! j = Some l ->
    s !! l = Some d ->
    exists lc,
      LocalGraph.nodesCopy p !! j = Some lc /\
      s' !! lc
      = Some (LocalGraph.initialNode
                (fst (LocalGraph.panelSize panelWidth))
                (snd (LocalGraph.panelSize panelWidth))
                (GraphNode.id selected)
                (List.length (LocalGraph.localNodesOf sel incoming outgoing))
                j d).
Proof.
  unfold LocalGraph.createLocalGraph. simpl negb. simpl orb. cbv iota.
  intros Hc Hsel j l d Hj Hd.
  destruct (LocalGraph.panelSize panelWidth) as [w h].
  destruct (List.length _ <=? 1)%nat; [discriminate|].
  destruct (LocalGraph.readAll s _) as [values|] eqn:Hr; [|discriminate].
  rewrite Hsel in Hc.
  destruct (LocalGraph.allocAll s _) as [s2 copies] eqn:Ha.
  injection Hc as <- <-. simpl.
  apply readAll_lookup in Hr as [Hlen Hval].
  apply allocAll_spec in Ha as (_ & _ & Hidx & Hlc).
  assert (Hinit : LocalGraph.initialNodes w h (GraphNode.id selected) values !! j
                  = Some (LocalGraph.initialNode w h (GraphNode.id selected)
                            (List.length
                               (LocalGraph.localNodesOf sel incoming outgoing))
                            j d)).
  { unfold LocalGraph.initialNodes. rewrite mapi_from_lookup.
    rewrite (Hval j l Hj), Hd, Hlen. reflexivity. }
  destruct (copies !! j) as [lc|] eqn:Hcj.
  - exists lc. split; [reflexivity|]. rewrite (Hidx j lc Hcj). exact Hinit.
  - apply lookup_ge_None in Hcj. apply lookup_lt_Some in Hinit.
    unfold LocalGraph.initialNodes in *. lia.
Qed.

(** C5, as the code has it: in the list of starting copies the selected
    node comes first and is pinned at the panel centre, with its
    position there; the neighbour at position j of the k neighbours,
    when its id is not the selected node's, starts on the circle of
    radius 80 around the centre at the angle (j + 1) * 2 pi / k, j + 1
    being its index in the local node list. *)
Theorem local_graph_starting_layout
        (width height : R) (selected : GraphNode.t)
        (neighbours : list GraphNode.t) (j : nat) (nb : GraphNode.t) :
  neighbours !! j = Some nb ->
  GraphNode.id nb <> GraphNode.id selected ->
  let copies :=
    LocalGraph.initialNodes width height (GraphNode.id selected)
      (selected :: neighbours) in
  let angle := (INR (S j) * 2 * PI / INR (List.length neighbours))%R in
  (exists c0,
      copies !! 0%nat = Some c0 /\
      GraphNode.x c0 = Num (width / 2) /\ GraphNode.y c0 = Num (height / 2) /\
      GraphNode.fx c0 = Num (width / 2) /\ GraphNode.fy c0 = Num (height / 2)) /\
  (exists c,
      copies !! S j = Some c /\
      GraphNode.x c = Num (width / 2 + cos angle * 80) /\
      GraphNode.y c = Num (height / 2 + sin angle * 80)).
Proof.
  intros Hj Hid copies angle. split.
  - eexists. split; [reflexivity|].
    unfold LocalGraph.initialNode. rewrite String.eqb_refl. now simpl.
  - subst copies. unfold LocalGraph.initialNodes.
    rewrite mapi_from_lookup.
    change ((selected :: neighbours) !! S j) with (neighbours !! j).
    rewrite Hj. eexists. split; [reflexivity|].
    unfold LocalGraph.initialNode.
    apply String.eqb_neq in Hid. rewrite Hid.
    change (List.length (selected :: neighbours) - 1)%nat
      with (List.length neighbours - 0)%nat.
    rewrite Nat.sub_0_r. now simpl.
Qed.

(** C5, on the selected node A with the neighbours B and C in a panel
    of 344 by 250: B, the first neighbour, starts at the angle pi. *)
Lemma local_graph_starting_layout_witness :
  let a := GraphNode.plain "A" "Paper" in
  let b := GraphNode.plain "B" "Entity" in
  let c := GraphNode.plain "C" "Result" in
  let copies := LocalGraph.initialNodes 344 250 "A" [a; b; c] in
  exists cb,
    copies !! 1%nat = Some cb /\
    GraphNode.x cb = Num (344 / 2 + cos (INR 1 * 2 * PI / INR 2) * 80).
Proof.
  intros a b c copies.
  destruct (local_graph_starting_layout 344 250 a [b; c] 0 b eq_refl)
    as [_ [cb (Hcb & Hx & _)]].
  - discriminate.
  - exists cb. split; [exact Hcb | exact Hx].
Defined.

(** C5, counterexample: with the two neighbours B and C of A, the
    first neighbour B does not start at the angle 0 * 2 pi / 2 but
    opposite, 160 units to the left of that point. *)
Lemma first_neighbour_not_at_angle_zero :
  let a := GraphNode.plain "A" "Paper" in
  let b := GraphNode.plain "B" "Entity" in
  let c := GraphNode.plain "C" "Result" in
  let copies := LocalGraph.initialNodes 344 250 "A" [a; b; c] in
  exists cb,
    copies !! 1%nat = Some cb /\
    GraphNode.id cb = "B" /\
    GraphNode.x cb = Num (344 / 2 - 80) /\
    GraphNode.x cb <> Num (344 / 2 + cos (INR 0 * 2 * PI / INR 2) * 80).
Proof.
  intros a b c copies.
  assert (Hpi : (INR 1 * 2 * PI / INR 2 = PI)%R) by (simpl; field).
  assert (H0 : (INR 0 * 2 * PI / INR 2 = 0)%R) by (simpl; field).
  eexists. split; [reflexivity|]. split; [reflexivity|].
  change (GraphNode.x _)
    with (Num (344 / 2 + cos (INR 1 * 2 * PI / INR 2) * LocalGraph.radius)).
  rewrite Hpi, H0, cos_PI, cos_0. unfold LocalGraph.radius.
  split; [f_equal; lra|]. intros H. injection H. lra.
Qed.

(** * Further properties *)

(** ** The search filter *)

Lemma list_filter_sublist {A : Type} (f : A -> bool) (l : list A) :
  sublist (List.filter f l) l.
Proof.
  induction l as [|a l IH]; simpl; [constructor|].
  destruct (f a); now constructor.
Qed.

(** X1: whatever the query and the active types, the filtered list is
    the node list of the graph with some nodes left out, in the same
    order; the number found never exceeds the number of nodes. *)
Theorem filtered_nodes_sublist (g : GraphData.t) (searchQuery : string)
        (selectedTypes : list string) :
  sublist (SearchFilter.filterNodes g searchQuery selectedTypes)
          (GraphData.nodes g) /\
  (List.length (SearchFilter.filterNodes g searchQuery selectedTypes)
   <= List.length (GraphData.nodes g))%nat.
Proof.
  assert (H : sublist (SearchFilter.filterNodes g searchQuery selectedTypes)
                      (GraphData.nodes g)).
  { unfold SearchFilter.filterNodes.
    destruct (negb _).
    - etransitivity; [apply list_filter_sublist|].
      destruct (0 <? _)%nat; [apply list_filter_sublist | reflexivity].
    - destruct (0 <? _)%nat; [apply list_filter_sublist | reflexivity]. }
  split; [exact H | now apply sublist_length].
Qed.

Lemma is_space_lower (c : ascii) : is_space (lower_ascii c) = is_space c.
Proof. destruct c as [[] [] [] [] [] [] [] []]; reflexivity. Qed.

Lemma lower_ascii_idem (c : ascii) :
  lower_ascii (lower_ascii c) = lower_ascii c.
Proof. destruct c as [[] [] [] [] [] [] [] []]; reflexivity. Qed.

Lemma toLowerCase_app (a b : string) :
  toLowerCase (a +:+ b) = toLowerCase a +:+ toLowerCase b.
Proof. induction a as [|c a IH]; simpl; [reflexivity | now rewrite IH]. Qed.

Lemma toLowerCase_empty (s : string) : toLowerCase s = "" <-> s = "".
Proof. destruct s; simpl; split; intros H; try reflexivity; discriminate. Qed.

Lemma trimStart_lower (s : string) :
  trimStart (toLowerCase s) = toLowerCase (trimStart s).
Proof.
  induction s as [|c s IH]; simpl; [reflexivity|].
  rewrite is_space_lower. destruct (is_space c); [exact IH | reflexivity].
Qed.

Lemma trimEnd_lower (s : string) :
  trimEnd (toLowerCase s) = toLowerCase (trimEnd s).
Proof.
  induction s as [|c s IH]; simpl; [reflexivity|].
  rewrite IH, is_space_lower.
  destruct (trimEnd s); simpl; [destruct (is_space c)|]; reflexivity.
Qed.

Lemma trim_lower (s : string) : trim (toLowerCase s) = toLowerCase (trim s).
Proof. unfold trim. now rewrite trimStart_lower, trimEnd_lower. Qed.

Lemma blank_by_lower (q1 q2 : string) :
  toLowerCase q1 = toLowerCase q2 ->
  String.eqb (trim q1) "" = String.eqb (trim q2) "".
Proof.
  intros H.
  assert (Hb : forall q, String.eqb (trim q) ""
                         = String.eqb (trim (toLowerCase q)) "").
  { intros q. rewrite trim_lower. destruct (trim q); reflexivity. }
  now rewrite (Hb q1), (Hb q2), H.
Qed.

(** X2: the search ignores the case of the query: two queries with
    the same lower-case form select the same nodes. *)
Theorem search_ignores_case (g : GraphData.t) (q1 q2 : string)
        (selectedTypes : list string) :
  toLowerCase q1 = toLowerCase q2 ->
  SearchFilter.filterNodes g q1 selectedTypes
  = SearchFilter.filterNodes g q2 selectedTypes.
Proof.
  intros H. unfold SearchFilter.filterNodes.
  now rewrite (blank_by_lower q1 q2 H), H.
Qed.

(** X2, on the queries SIRT1 and sirt1. *)
Lemma search_ignores_case_witness :
  let e := GraphNode.mk "e1" "Entity" None None None (Some "SIRT1 pathway")
             None None Undefined Undefined Undefined Undefined Undefined
             Undefined Undefined in
  SearchFilter.filterNodes (GraphData.mk [e] []) "SIRT1" []
  = SearchFilter.filterNodes (GraphData.mk [e] []) "sirt1" [].
Proof.
  intros e.
  apply (search_ignores_case (GraphData.mk [e] []) "SIRT1" "sirt1" []).
  reflexivity.
Defined.

Lemma substring_of_lower (q s : string) :
  substring_of q s -> substring_of (toLowerCase q) (toLowerCase s).
Proof.
  intros [pre [post ->]].
  exists (toLowerCase pre), (toLowerCase post).
  now rewrite !toLowerCase_app.
Qed.

Lemma append_assoc (a b c : string) : (a +:+ b) +:+ c = a +:+ (b +:+ c).
Proof.
  induction a as [|x a IH]; [reflexivity|].
  change (String x ((a +:+ b) +:+ c) = String x (a +:+ (b +:+ c))).
  now rewrite IH.
Qed.

Lemma append_empty_r (a : string) : a +:+ "" = a.
Proof.
  induction a as [|x a IH]; [reflexivity|].
  change (String x (a +:+ "") = String x a). now rewrite IH.
Qed.

Lemma join_contains (sep s : string) (parts : list string) :
  In s parts -> substring_of s (join sep parts).
Proof.
  unfold join. induction parts as [|p parts IH]; [intros []|].
  intros [-> | Hin].
  - destruct parts as [|p' parts]; simpl.
    + exists "", "". simpl. now rewrite append_empty_r.
    + exists "", (sep +:+ String.concat sep (p' :: parts)). reflexivity.
  - destruct (IH Hin) as [pre [post Heq]].
    destruct parts as [|p' parts]; [destruct Hin|].
    change (String.concat sep (p :: p' :: parts))
      with (p +:+ sep +:+ String.concat sep (p' :: parts)).
    rewrite Heq. exists (p +:+ sep +:+ pre), post.
    now rewrite !append_assoc.
Qed.

Lemma filterBoolean_In (fields : list (option string)) (s : string) :
  In (Some s) fields -> s <> "" -> In s (filterBoolean fields).
Proof.
  intros Hin Hne. induction fields as [|f fields IH]; [destruct Hin|].
  simpl. destruct Hin as [-> | Hin].
  - apply String.eqb_neq in Hne. rewrite Hne. now left.
  - destruct f as [t|]; [destruct (String.eqb t ""); [|right]|]; now apply IH.
Qed.

Lemma append_self_empty (a : string) : a = a +:+ a -> a = "".
Proof.
  assert (Hlen : forall x y : string,
             String.length (x +:+ y)
             = (String.length x + String.length y)%nat).
  { intros x y. induction x as [|c x IH]; [reflexivity|].
    change (S (String.length (x +:+ y))
            = S (String.length x + String.length y)).
    now rewrite IH. }
  intros H. apply (f_equal String.length) in H. rewrite Hlen in H.
  destruct a; [reflexivity | simpl in H; lia].
Qed.

Lemma substring_of_image (lower : string -> string) (q s : string) :
  (forall a b, lower (a +:+ b) = lower a +:+ lower b) ->
  substring_of q s -> substring_of (lower q) (lower s).
Proof.
  intros Hhom [pre [post ->]].
  exists (lower pre), (lower post). now rewrite !Hhom.
Qed.

(** X3: a node is found by the text of any of its searched fields,
    in any letter case, whenever lower-casing works piece by piece (the
    lower-case form of a concatenation is the concatenation of the
    lower-case forms, as for a letter-by-letter folding): with no type
    filter, a query whose lower-case form is that of the node's id,
    name, canonical_name, paper_id, type, entity_type or content keeps
    the node, whatever trim does. *)
Theorem search_finds_node_by_field (lower strip : string -> string)
        (g : GraphData.t) (node : GraphNode.t) (value searchQuery : string) :
  (forall a b, lower (a +:+ b) = lower a +:+ lower b) ->
  In node (GraphData.nodes g) ->
  In (Some value)
     [ Some (GraphNode.id node); GraphNode.name node;
       GraphNode.canonical_name node; GraphNode.paper_id node;
       Some (GraphNode.type node); GraphNode.entity_type node;
       GraphNode.content node ] ->
  lower searchQuery = lower value ->
  In node (SearchFilter.filterNodesWith lower strip g searchQuery []).
Proof.
  intros Hhom Hnode Hfield Hq. unfold SearchFilter.filterNodesWith.
  change (0 <? List.length (@nil string))%nat with false. cbv iota.
  destruct (String.eqb (strip searchQuery) ""); cbn [negb]; [exact Hnode|].
  apply filter_In. split; [exact Hnode|].
  apply includes_iff. rewrite Hq. unfold SearchFilter.searchTextWith.
  destruct (String.eqb value "") eqn:Hv.
  - apply String.eqb_eq in Hv. subst value.
    rewrite (append_self_empty (lower "") (Hhom "" "")).
    now exists "", (lower (join " " (filterBoolean
      [ Some (GraphNode.id node); GraphNode.name node;
        GraphNode.canonical_name node; GraphNode.paper_id node;
        Some (GraphNode.type node); GraphNode.entity_type node;
        GraphNode.content node ]))).
  - apply String.eqb_neq in Hv.
    apply (substring_of_image lower _ _ Hhom).
    apply join_contains, filterBoolean_In; assumption.
Qed.

(** X3, on a node found by its canonical name typed in capitals, with
    the ASCII folding. *)
Lemma search_finds_node_by_field_witness :
  let e := GraphNode.mk "e1" "Entity" None None None (Some "SIRT1 pathway")
             None None Undefined Undefined Undefined Undefined Undefined
             Undefined Undefined in
  In e (SearchFilter.filterNodes (GraphData.mk [e] []) "SIRT1 PATHWAY" []).
Proof.
  intros e.
  apply (search_finds_node_by_field toLowerCase trim
           (GraphData.mk [e] []) e "SIRT1 pathway").
  - apply toLowerCase_app.
  - left. reflexivity.
  - right. right. left. reflexivity.
  - reflexivity.
Defined.

(** ** The filter bar *)

Lemma NoDup_snoc {A : Type} (l : list A) (a : A) :
  List.NoDup l -> ~ In a l -> List.NoDup (l ++ [a]).
Proof.
  induction l as [|b l IH]; intros Hnd Hn; simpl.
  - constructor; [intros [] | constructor].
  - inversion Hnd as [|? ? Hb Hl]; subst. constructor.
    + rewrite in_app_iff. simpl. intros [H | [H | []]]; [tauto|].
      apply Hn. now left.
    + apply IH; [exact Hl|]. intros H. apply Hn. now right.
Qed.

Lemma unique_fold (xs : list string) :
  forall seen,
    List.NoDup seen ->
    let r := fold_left
               (fun seen x =>
                  if arrayIncludes seen x then seen else (seen ++ [x])%list)
               xs seen in
    List.NoDup r /\ (forall t, In t r <-> In t seen \/ In t xs).
Proof.
  induction xs as [|x xs IH]; intros seen Hnd; simpl.
  - split; [exact Hnd | intros t; tauto].
  - destruct (arrayIncludes seen x) eqn:Hx.
    + apply arrayIncludes_iff in Hx.
      destruct (IH seen Hnd) as [H1 H2]. split; [exact H1|].
      intros t. rewrite H2. split; [tauto|].
      intros [H | [<- | H]]; tauto.
    + assert (Hnx : ~ In x seen).
      { intros H. apply arrayIncludes_iff in H. congruence. }
      assert (Hnd' : List.NoDup (seen ++ [x]))
        by now apply NoDup_snoc.
      destruct (IH (seen ++ [x])%list Hnd') as [H1 H2]. split; [exact H1|].
      intros t. rewrite H2, in_app_iff. simpl. tauto.
Qed.

Lemma unique_spec (xs : list string) :
  List.NoDup (Filters.unique xs) /\
  forall t, In t (Filters.unique xs) <-> In t xs.
Proof.
  destruct (unique_fold xs [] (List.NoDup_nil _)) as [H1 H2].
  split; [exact H1|]. intros t. unfold Filters.unique. rewrite H2.
  simpl. tauto.
Qed.

Lemma nodeTypes_In (g : GraphData.t) (n : GraphNode.t) :
  In n (GraphData.nodes g) ->
  In (GraphNode.type n) (Filters.nodeTypes (Some g)).
Proof.
  intros Hn. simpl. apply unique_spec. now apply in_map.
Qed.

(** X4: the type buttons show every type that occurs among the nodes
    of the graph, each once. *)
Theorem node_types_distinct_and_complete (g : GraphData.t) (type : string) :
  List.NoDup (Filters.nodeTypes (Some g)) /\
  (In type (Filters.nodeTypes (Some g)) <->
   exists n, In n (GraphData.nodes g) /\ GraphNode.type n = type).
Proof.
  destruct (unique_spec (List.map GraphNode.type (GraphData.nodes g)))
    as [H1 H2].
  split; [exact H1|]. simpl. rewrite H2, in_map_iff.
  split; intros [n [Ha Hb]]; exists n; tauto.
Qed.

Lemma list_filter_all {A : Type} (f : A -> bool) (l : list A) :
  (forall a, In a l -> f a = true) -> List.filter f l = l.
Proof.
  induction l as [|a l IH]; intros H; simpl; [reflexivity|].
  rewrite (H a (or_introl eq_refl)), IH; [reflexivity|].
  intros b Hb. apply H. now right.
Qed.

(** X5: activating all types of the graph (the button for all)
    restricts nothing: the result is that of no active type, whatever
    the query. *)
Theorem all_types_filter_nothing (g : GraphData.t) (searchQuery : string) :
  SearchFilter.filterNodes g searchQuery (Filters.nodeTypes (Some g))
  = SearchFilter.filterNodes g searchQuery [].
Proof.
  unfold SearchFilter.filterNodes.
  change (0 <? List.length (@nil string))%nat with false. cbv iota.
  destruct (0 <? List.length (Filters.nodeTypes (Some g)))%nat;
    [|reflexivity].
  rewrite (list_filter_all _ (GraphData.nodes g)); [reflexivity|].
  intros n Hn. apply arrayIncludes_iff.
  now apply nodeTypes_In.
Qed.

Lemma list_sum_map_add {A : Type} (f h : A -> nat) (l : list A) :
  list_sum (List.map (fun a => f a + h a)%nat l)
  = (list_sum (List.map f l) + list_sum (List.map h l))%nat.
Proof. induction l as [|a l IH]; simpl; [reflexivity | rewrite IH; lia]. Qed.

Lemma indicator_sum (ts : list string) (a : string) :
  List.NoDup ts ->
  list_sum (List.map (fun t => if String.eqb a t then 1 else 0)%nat ts)
  = if arrayIncludes ts a then 1%nat else 0%nat.
Proof.
  unfold arrayIncludes.
  induction ts as [|t ts IH]; intros Hnd; simpl; [reflexivity|].
  inversion Hnd as [|? ? Ht Hts]; subst. rewrite (IH Hts).
  destruct (String.eqb a t) eqn:Hat; simpl; [|reflexivity].
  apply String.eqb_eq in Hat. subst t.
  destruct (existsb (String.eqb a) ts) eqn:Hex; [|reflexivity].
  apply existsb_exists in Hex as [x [Hx Hax]].
  apply String.eqb_eq in Hax. subst x. contradiction.
Qed.

Lemma count_by_type (l : list GraphNode.t) (ts : list string) :
  List.NoDup ts ->
  (forall n, In n l -> In (GraphNode.type n) ts) ->
  list_sum
    (List.map
       (fun t =>
          List.length
            (List.filter (fun n => String.eqb (GraphNode.type n) t) l))
       ts)
  = List.length l.
Proof.
  intros Hnd. induction l as [|n l IH]; intros Hcov.
  - simpl. induction ts as [|t ts IHts]; simpl; [reflexivity|].
    inversion Hnd; subst. now rewrite IHts.
  - rewrite (map_ext _
               (fun t =>
                  (if String.eqb (GraphNode.type n) t then 1 else 0)
                  + List.length
                      (List.filter
                         (fun n => String.eqb (GraphNode.type n) t) l))%nat).
    + rewrite list_sum_map_add, (indicator_sum ts _ Hnd), IH.
      * assert (H : arrayIncludes ts (GraphNode.type n) = true).
        { apply arrayIncludes_iff, Hcov. now left. }
        now rewrite H.
      * intros m Hm. apply Hcov. now right.
    + intros t. simpl. now destruct (String.eqb (GraphNode.type n) t).
Qed.

(** X6: the counts on the type buttons add up to the number of nodes
    of the graph. *)
Theorem type_counts_add_up (g : GraphData.t) :
  list_sum (List.map (Filters.typeCount (Some g)) (Filters.nodeTypes (Some g)))
  = List.length (GraphData.nodes g).
Proof.
  unfold Filters.typeCount.
  apply count_by_type.
  - apply unique_spec.
  - intros n Hn. now apply nodeTypes_In.
Qed.

(** X7: toggling a type switches it: it is active afterwards iff it
    was not before; the other types stay as they were; and a list of
    active types without repetition stays without repetition. *)
Theorem toggle_switches_one_type (type other : string) (prev : list string) :
  (In type (Filters.toggleTypeFilter type prev) <-> ~ In type prev) /\
  (other <> type ->
   (In other (Filters.toggleTypeFilter type prev) <-> In other prev)) /\
  (List.NoDup prev -> List.NoDup (Filters.toggleTypeFilter type prev)).
Proof.
  unfold Filters.toggleTypeFilter.
  destruct (arrayIncludes prev type) eqn:Hin.
  - apply arrayIncludes_iff in Hin. split; [|split].
    + rewrite filter_In, String.eqb_refl. simpl. split; [intros [_ H]|];
        [discriminate | tauto].
    + intros Hne. rewrite filter_In.
      apply String.eqb_neq in Hne. rewrite Hne. simpl. tauto.
    + apply List.NoDup_filter.
  - assert (Hn : ~ In type prev).
    { intros H. apply arrayIncludes_iff in H. congruence. }
    split; [|split].
    + rewrite in_app_iff. simpl. tauto.
    + intros Hne. rewrite in_app_iff. simpl. split; [|tauto].
      intros [H | [H | []]]; [exact H | congruence].
    + intros Hnd. now apply NoDup_snoc.
Qed.

(** X7, on the active types Paper and Entity with Paper toggled. *)
Lemma toggle_switches_one_type_witness :
  ~ In "Paper" (Filters.toggleTypeFilter "Paper" ["Paper"; "Entity"]) /\
  In "Entity" (Filters.toggleTypeFilter "Paper" ["Paper"; "Entity"]) /\
  List.NoDup (Filters.toggleTypeFilter "Paper" ["Paper"; "Entity"]).
Proof.
  destruct (toggle_switches_one_type "Paper" "Entity" ["Paper"; "Entity"])
    as (H1 & H2 & H3).
  split; [|split].
  - intros H. apply H1 in H. apply H. now left.
  - apply H2; [discriminate|]. right. now left.
  - apply H3. constructor.
    + intros [H | []]. discriminate.
    + constructor; [intros [] | constructor].
Defined.

(** X9: the result list shows the first 50 of the nodes found, or all
    of them when there are fewer: its rows are nodes of the graph in
    graph order, their number is min(50, found), and the note about
    more results is shown exactly when rows were left out. *)
Theorem result_list_is_capped (g : GraphData.t) (searchQuery : string)
        (selectedTypes : list string) :
  let found := SearchFilter.filterNodes g searchQuery selectedTypes in
  let rows := Filters.shownResults found in
  List.length rows = Nat.min 50 (List.length found) /\
  (rows ++ skipn 50 found)%list = found /\
  sublist rows (GraphData.nodes g) /\
  (Filters.truncationNote found = true <->
   (List.length rows < List.length found)%nat).
Proof.
  intros found rows. subst rows. unfold Filters.shownResults.
  split; [apply length_firstn|].
  split; [apply firstn_skipn|].
  split.
  - etransitivity; [apply sublist_take|].
    subst found. unfold SearchFilter.filterNodes.
    destruct (negb _).
    + etransitivity; [apply list_filter_sublist|].
      destruct (0 <? _)%nat; [apply list_filter_sublist | reflexivity].
    + destruct (0 <? _)%nat; [apply list_filter_sublist | reflexivity].
  - unfold Filters.truncationNote. rewrite Nat.ltb_lt, length_firstn. lia.
Qed.

(** ** Connections and selection *)

Lemma flat_map_length_le {A B : Type} (F G : A -> list B) (l : list A) :
  (forall a, (List.length (F a) + List.length (G a) <= 1)%nat) ->
  (List.length (flat_map F l) + List.length (flat_map G l)
   <= List.length l)%nat.
Proof.
  intros H. induction l as [|a l IH]; simpl; [lia|].
  rewrite !length_app. specialize (H a). lia.
Qed.

(** X10: every connection of the ego network names the two ends of
    its edge: an incoming one ends in the selected id and starts at the
    node it shows, an outgoing one starts at the selected id and ends in
    the node it shows; and there are at most as many connections as
    edges. *)
Theorem connections_name_edge_ends (g : GraphData.t) (nodeId : string)
        (c : Selection.Connection) :
  let r := Selection.findConnectedNodes (Some g) nodeId in
  (In c (Selection.incoming r) ->
   GraphEdge.target (Selection.edge c) = nodeId /\
   GraphNode.id (Selection.node c) = GraphEdge.source (Selection.edge c)) /\
  (In c (Selection.outgoing r) ->
   GraphEdge.source (Selection.edge c) = nodeId /\
   GraphNode.id (Selection.node c) = GraphEdge.target (Selection.edge c)) /\
  (List.length (Selection.incoming r) + List.length (Selection.outgoing r)
   <= List.length (GraphData.edges g))%nat.
Proof.
  intros r.
  destruct (findConnectedNodes_ok g nodeId) as [Hi Ho].
  fold r in Hi, Ho. rewrite List.Forall_forall in Hi, Ho.
  split; [|split].
  - intros Hc. destruct (Hi c Hc) as (_ & Ht & Hf).
    apply findById_In in Hf. tauto.
  - intros Hc. destruct (Ho c Hc) as (_ & _ & Hs & Hf).
    apply findById_In in Hf. tauto.
  - subst r. simpl. rewrite incoming_fold, outgoing_fold. simpl.
    apply flat_map_length_le. intros e.
    destruct (String.eqb (GraphEdge.target e) nodeId); simpl.
    + destruct (findById _ _); simpl; lia.
    + destruct (String.eqb (GraphEdge.source e) nodeId); simpl; [|lia].
      destruct (findById _ _); simpl; lia.
Qed.

(** X10, on the graph A -> B -> C with B selected. *)
Lemma connections_name_edge_ends_witness :
  let a := GraphNode.plain "A" "Paper" in
  let b := GraphNode.plain "B" "Entity" in
  let c := GraphNode.plain "C" "Result" in
  let ab := GraphEdge.mk "A" "B" None None in
  let bc := GraphEdge.mk "B" "C" None None in
  let g := GraphData.mk [a; b; c] [ab; bc] in
  GraphEdge.target ab = "B" /\ GraphNode.id a = GraphEdge.source ab /\
  GraphEdge.source bc = "B" /\ GraphNode.id c = GraphEdge.target bc.
Proof.
  intros a b c ab bc g.
  destruct (connections_name_edge_ends g "B" (Selection.mkConnection a ab))
    as (Hin & _ & _).
  destruct (connections_name_edge_ends g "B" (Selection.mkConnection c bc))
    as (_ & Hout & _).
  destruct Hin as [H1 H2]; [left; reflexivity|].
  destruct Hout as [H3 H4]; [left; reflexivity|].
  repeat split; assumption.
Defined.

Lemma flat_map_edges_filter (F : GraphEdge.t -> list Selection.Connection)
      (p : GraphEdge.t -> bool) (es : list GraphEdge.t) :
  (forall e, In e es ->
             List.map Selection.edge (F e) = if p e then [e] else []) ->
  List.map Selection.edge (flat_map F es) = List.filter p es.
Proof.
  induction es as [|e es IH]; intros H; simpl; [reflexivity|].
  rewrite map_app, (H e (or_introl eq_refl)), IH.
  - now destruct (p e).
  - intros e' He'. apply H. now right.
Qed.

(** X11: in a graph whose edges all start and end at nodes of the node
    list, and for a node without an edge to itself, the incoming
    connections are, in edge order, exactly the edges that end in the
    node, and the outgoing ones exactly the edges that start at it. *)
Theorem ego_network_complete_on_sound_graph
        (g : GraphData.t) (nodeId : string) :
  (forall e, In e (GraphData.edges g) ->
             findById (GraphData.nodes g) (GraphEdge.source e) <> None /\
             findById (GraphData.nodes g) (GraphEdge.target e) <> None) ->
  (forall e, In e (GraphData.edges g) ->
             ~ (GraphEdge.source e = nodeId /\ GraphEdge.target e = nodeId)) ->
  let r := Selection.findConnectedNodes (Some g) nodeId in
  List.map Selection.edge (Selection.incoming r)
  = List.filter (fun e => String.eqb (GraphEdge.target e) nodeId)
                (GraphData.edges g) /\
  List.map Selection.edge (Selection.outgoing r)
  = List.filter (fun e => String.eqb (GraphEdge.source e) nodeId)
                (GraphData.edges g).
Proof.
  intros Hsound Hloop r. subst r. simpl.
  rewrite incoming_fold, outgoing_fold. simpl. split.
  - apply flat_map_edges_filter. intros e He.
    destruct (Hsound e He) as [Hs _].
    destruct (String.eqb (GraphEdge.target e) nodeId); [|reflexivity].
    destruct (findById _ (GraphEdge.source e)); [reflexivity | congruence].
  - apply flat_map_edges_filter. intros e He.
    destruct (Hsound e He) as [_ Ht].
    destruct (String.eqb (GraphEdge.source e) nodeId) eqn:Hsrc.
    + destruct (String.eqb (GraphEdge.target e) nodeId) eqn:Htgt; simpl.
      * apply String.eqb_eq in Hsrc, Htgt. elim (Hloop e He). now split.
      * destruct (findById _ (GraphEdge.target e)); [reflexivity | congruence].
    + now rewrite andb_false_r.
Qed.

(** X11, on the graph A -> B -> C with B selected. *)
Lemma ego_network_complete_on_sound_graph_witness :
  let a := GraphNode.plain "A" "Paper" in
  let b := GraphNode.plain "B" "Entity" in
  let c := GraphNode.plain "C" "Result" in
  let ab := GraphEdge.mk "A" "B" None None in
  let bc := GraphEdge.mk "B" "C" None None in
  let r := Selection.findConnectedNodes
             (Some (GraphData.mk [a; b; c] [ab; bc])) "B" in
  List.map Selection.edge (Selection.incoming r) = [ab] /\
  List.map Selection.edge (Selection.outgoing r) = [bc].
Proof.
  intros a b c ab bc r.
  apply (ego_network_complete_on_sound_graph
           (GraphData.mk [a; b; c] [ab; bc]) "B").
  - intros e [<- | [<- | []]]; split; discriminate.
  - intros e [<- | [<- | []]] [H1 H2]; discriminate.
Defined.

(** ** Selecting and focusing *)

Lemma findById_unique (nodes : list GraphNode.t) (n : GraphNode.t) :
  List.NoDup (List.map GraphNode.id nodes) -> In n nodes ->
  findById nodes (GraphNode.id n) = Some n.
Proof.
  unfold findById.
  induction nodes as [|m nodes IH]; intros Hnd Hin; [destruct Hin|].
  simpl in *. inversion Hnd as [|? ? Hm Hrest]; subst.
  destruct Hin as [-> | Hin]; [now rewrite String.eqb_refl|].
  destruct (String.eqb (GraphNode.id m) (GraphNode.id n)) eqn:Heq.
  - apply String.eqb_eq in Heq. elim Hm. rewrite Heq. now apply in_map.
  - now apply IH.
Qed.

Lemma performFocus_keeps (sn : option nat) (tn : GraphNode.t) (v : Focus.View) :
  Focus.selectedNode (Focus.performFocus sn tn v) = Focus.selectedNode v /\
  Focus.showFullContent (Focus.performFocus sn tn v) = Focus.showFullContent v /\
  Focus.showLocalGraph (Focus.performFocus sn tn v) = Focus.showLocalGraph v /\
  Focus.timers (Focus.performFocus sn tn v) = Focus.timers v.
Proof.
  unfold Focus.performFocus.
  destruct (Focus.positioned _); repeat split; reflexivity.
Qed.

Lemma focusOnNodeFromSearch_found (nodeId : string) (v : Focus.View)
      (g : GraphData.t) (targetNode : GraphNode.t) :
  Focus.graphData v = Some g ->
  Focus.svgMounted v = true ->
  Focus.zoomBehavior v = true ->
  findById (GraphData.nodes g) nodeId = Some targetNode ->
  let v' := Focus.focusOnNodeFromSearch nodeId v in
  Focus.selectedNode v' = Some targetNode /\
  Focus.showFullContent v' = false /\
  Focus.showLocalGraph v' = false.
Proof.
  intros Hg Hsvg Hzoom Hfind. unfold Focus.focusOnNodeFromSearch.
  rewrite Hg, Hsvg, Hfind, Hzoom. cbn [negb].
  set (v1 := Focus.setSelected targetNode true v).
  destruct (match Focus.simulationNodes v1 with
            | Some nodes => _
            | None => None
            end) as [i|].
  - destruct (match Focus.clone v1 i with
              | Some n => _
              | None => false
              end).
    + destruct (performFocus_keeps (Some i) targetNode v1) as (H1 & H2 & H3 & _).
      rewrite H1, H2, H3. repeat split.
    + repeat split.
  - repeat split.
Qed.

(** X12: in a graph whose node ids are pairwise distinct, choosing a
    row of the result list selects the very node of that row and
    collapses the full-content and local-graph views. *)
Theorem search_row_selects_its_node
        (v : Focus.View) (g : GraphData.t) (searchQuery : string)
        (selectedTypes : list string) (node : GraphNode.t) :
  Focus.graphData v = Some g ->
  Focus.svgMounted v = true ->
  Focus.zoomBehavior v = true ->
  List.NoDup (List.map GraphNode.id (GraphData.nodes g)) ->
  In node (Filters.shownResults
             (SearchFilter.filterNodes g searchQuery selectedTypes)) ->
  let v' := Focus.focusOnNodeFromSearch (GraphNode.id node) v in
  Focus.selectedNode v' = Some node /\
  Focus.showFullContent v' = false /\
  Focus.showLocalGraph v' = false.
Proof.
  intros Hg Hsvg Hzoom Hnd Hrow.
  apply (focusOnNodeFromSearch_found _ v g node Hg Hsvg Hzoom).
  apply findById_unique; [exact Hnd|].
  assert (Hsub : sublist
                   (Filters.shownResults
                      (SearchFilter.filterNodes g searchQuery selectedTypes))
                   (GraphData.nodes g)).
  { unfold Filters.shownResults. etransitivity; [apply sublist_take|].
    unfold SearchFilter.filterNodes.
    destruct (negb _).
    - etransitivity; [apply list_filter_sublist|].
      destruct (0 <? _)%nat; [apply list_filter_sublist | reflexivity].
    - destruct (0 <? _)%nat; [apply list_filter_sublist | reflexivity]. }
  apply list_elem_of_In. apply list_elem_of_In in Hrow.
  eapply elem_of_sublist; [exact Hrow | exact Hsub].
Qed.

(** X12, on the graph with the nodes A and B and the query b. *)
Lemma search_row_selects_its_node_witness :
  let a := GraphNode.plain "A" "Paper" in
  let b := GraphNode.plain "B" "Entity" in
  let g := GraphData.mk [a; b] [] in
  let v := Focus.mkView (Some g) true true None (Num 1200) (Num 800)
             (Some a) true true Zoom.zoomIdentity [] in
  Focus.selectedNode (Focus.focusOnNodeFromSearch "B" v) = Some b /\
  Focus.showFullContent (Focus.focusOnNodeFromSearch "B" v) = false /\
  Focus.showLocalGraph (Focus.focusOnNodeFromSearch "B" v) = false.
Proof.
  intros a b g v.
  apply (search_row_selects_its_node v g "b" [] b);
    try reflexivity.
  - constructor; [intros [H | []]; discriminate|].
    constructor; [intros [] | constructor].
  - vm_compute. left. reflexivity.
Defined.

Lemma focusOnNode_found (nodeId : string) (v : Focus.View)
      (g : GraphData.t) (node : GraphNode.t) :
  Focus.graphData v = Some g ->
  Focus.svgMounted v = true ->
  Focus.zoomBehavior v = true ->
  findById (GraphData.nodes g) nodeId = Some node ->
  let v' := Viewport.focusOnNode nodeId v in
  Focus.selectedNode v' = Some node /\
  Focus.showFullContent v' = false /\
  Focus.showLocalGraph v' = false.
Proof.
  intros Hg Hsvg Hzoom Hfind. unfold Viewport.focusOnNode.
  rewrite Hg, Hfind, Hsvg, Hzoom. repeat split.
Qed.

(** X13: a click on a connection of the detail panel selects the node
    that the connection shows, and collapses the full-content and
    local-graph views; this holds for every connection of the ego
    network, also in graphs with repeated ids. *)
Theorem connection_click_selects_neighbour
        (v : Focus.View) (g : GraphData.t) (nodeId : string)
        (c : Selection.Connection) :
  Focus.graphData v = Some g ->
  Focus.svgMounted v = true ->
  Focus.zoomBehavior v = true ->
  In c (Selection.incoming (Selection.findConnectedNodes (Some g) nodeId)
        ++ Selection.outgoing (Selection.findConnectedNodes (Some g) nodeId))
  ->
  let v' := Viewport.focusOnNode (GraphNode.id (Selection.node c)) v in
  Focus.selectedNode v' = Some (Selection.node c) /\
  Focus.showFullContent v' = false /\
  Focus.showLocalGraph v' = false.
Proof.
  intros Hg Hsvg Hzoom Hc.
  apply (focusOnNode_found _ v g (Selection.node c) Hg Hsvg Hzoom).
  destruct (findConnectedNodes_ok g nodeId) as [Hi Ho].
  rewrite List.Forall_forall in Hi, Ho.
  apply in_app_or in Hc as [Hc | Hc].
  - destruct (Hi c Hc) as (_ & _ & Hf).
    destruct (findById_In _ _ _ Hf) as [_ Hid]. now rewrite Hid.
  - destruct (Ho c Hc) as (_ & _ & _ & Hf).
    destruct (findById_In _ _ _ Hf) as [_ Hid]. now rewrite Hid.
Qed.

(** X13, on the graph A -> B with B selected and the connection to A
    clicked. *)
Lemma connection_click_selects_neighbour_witness :
  let a := GraphNode.plain "A" "Paper" in
  let b := GraphNode.plain "B" "Entity" in
  let ab := GraphEdge.mk "A" "B" None None in
  let g := GraphData.mk [a; b] [ab] in
  let v := Focus.mkView (Some g) true true None (Num 1200) (Num 800)
             (Some b) true true Zoom.zoomIdentity [] in
  Focus.selectedNode (Viewport.focusOnNode "A" v) = Some a /\
  Focus.showFullContent (Viewport.focusOnNode "A" v) = false /\
  Focus.showLocalGraph (Viewport.focusOnNode "A" v) = false.
Proof.
  intros a b ab g v.
  apply (connection_click_selects_neighbour v g "B"
           (Selection.mkConnection a ab)); try reflexivity.
  left. reflexivity.
Defined.

(** ** The viewport *)

Lemma zoomTo_centres (cx cy x y : R) :
  Viewport.applyTransform (Viewport.zoomTo cx cy x y) (x, y) = (cx, cy) /\
  Zoom.k (Viewport.zoomTo cx cy x y) = (5 / 2)%R.
Proof.
  unfold Viewport.applyTransform, Viewport.zoomTo, Zoom.translate, Zoom.scale,
    Zoom.zoomIdentity.
  cbn [Zoom.k Zoom.tx Zoom.ty fst snd].
  split; [f_equal; lra | lra].
Qed.

Lemma orElse_zero (r : R) : orElse (Num r) 0 = r.
Proof. unfold orElse. destruct (Req_dec_T r 0); congruence. Qed.

Lemma findIndex_find (p : GraphNode.t -> bool) (nodes : list GraphNode.t)
      (n : GraphNode.t) :
  List.find p nodes = Some n ->
  exists i, Focus.findIndex p nodes = Some i /\ nth_error nodes i = Some n.
Proof.
  induction nodes as [|m nodes IH]; simpl; [discriminate|].
  destruct (p m).
  - intros H. injection H as <-. now exists 0%nat.
  - intros H. destruct (IH H) as [i [Hi Hn]].
    exists (S i). rewrite Hi. now split.
Qed.

(** X14: choosing a node in the search panel whose clone in the
    running simulation has a position puts that position in the middle
    of the container at scale 2.5, at once and without a polling
    timer. *)
Theorem search_focus_centres_node
        (v : Focus.View) (g : GraphData.t) (nodeId : string)
        (targetNode simulationNode : GraphNode.t)
        (nodes : list GraphNode.t) (px py : R) :
  Focus.graphData v = Some g ->
  Focus.svgMounted v = true ->
  Focus.zoomBehavior v = true ->
  findById (GraphData.nodes g) nodeId = Some targetNode ->
  Focus.simulationNodes v = Some nodes ->
  findById nodes nodeId = Some simulationNode ->
  GraphNode.x simulationNode = Num px ->
  GraphNode.y simulationNode = Num py ->
  let v' := Focus.focusOnNodeFromSearch nodeId v in
  Viewport.applyTransform (Focus.transform v') (px, py)
  = ((orElse (Focus.clientWidth v) 1200 / 2)%R,
     (orElse (Focus.clientHeight v) 800 / 2)%R) /\
  Zoom.k (Focus.transform v') = (5 / 2)%R /\
  Focus.timers v' = Focus.timers v.
Proof.
  intros Hg Hsvg Hzoom Hfind Hsim Hclone Hx Hy.
  destruct (findIndex_find _ _ _ Hclone) as [i [Hi Hn]].
  unfold Focus.focusOnNodeFromSearch.
  rewrite Hg, Hsvg, Hfind, Hzoom. cbn [negb].
  set (v1 := Focus.setSelected targetNode true v).
  assert (Hc : Focus.clone v1 i = Some simulationNode).
  { unfold Focus.clone. subst v1. cbn [Focus.setSelected Focus.simulationNodes].
    now rewrite Hsim. }
  replace (Focus.simulationNodes v1) with (Some nodes)
    by (symmetry; exact Hsim).
  rewrite Hi, Hc. cbv beta iota. rewrite Hx. cbn [defined].
  unfold Focus.performFocus, Focus.nodeToFocus. rewrite Hc.
  change (default targetNode (Some simulationNode)) with simulationNode.
  unfold Focus.positioned. rewrite Hx, Hy.
  cbn [defined andb toNumber].
  cbn [Focus.setTransform Focus.transform Focus.timers Focus.clientWidth
       Focus.clientHeight Focus.setSelected].
  subst v1.
  cbn [Focus.setTransform Focus.transform Focus.timers Focus.clientWidth
       Focus.clientHeight Focus.setSelected].
  destruct (zoomTo_centres (orElse (Focus.clientWidth v) 1200 / 2)
              (orElse (Focus.clientHeight v) 800 / 2) px py) as [H1 H2].
  split; [exact H1|]. split; [exact H2 | reflexivity].
Qed.

(** X14, on the node A placed at (10, 20) by the simulation. *)
Lemma search_focus_centres_node_witness :
  let a := GraphNode.plain "A" "Paper" in
  let a' := GraphNode.set_pos (Num 10) (Num 20) a in
  let v := Focus.mkView (Some (GraphData.mk [a] [])) true true (Some [a'])
             (Num 1200) (Num 800) None false false Zoom.zoomIdentity [] in
  Viewport.applyTransform
    (Focus.transform (Focus.focusOnNodeFromSearch "A" v)) (10, 20)%R
  = ((orElse (Num 1200) 1200 / 2)%R, (orElse (Num 800) 800 / 2)%R) /\
  Zoom.k (Focus.transform (Focus.focusOnNodeFromSearch "A" v)) = (5 / 2)%R /\
  Focus.timers (Focus.focusOnNodeFromSearch "A" v) = [].
Proof.
  intros a a' v.
  apply (search_focus_centres_node v (GraphData.mk [a] []) "A" a a' [a']
           10 20); reflexivity.
Defined.

Lemma mount_focus_lands (cx cy x y : R) :
  Viewport.applyTransform
    (Zoom.scale (5 / 2) (Zoom.translate (cx - x) (cy - y) Zoom.zoomIdentity))
    (x, y)
  = ((cx + 3 / 2 * x)%R, (cy + 3 / 2 * y)%R).
Proof.
  unfold Viewport.applyTransform, Zoom.translate, Zoom.scale,
    Zoom.zoomIdentity.
  cbn [Zoom.k Zoom.tx Zoom.ty fst snd]. f_equal; lra.
Qed.

(** X15: the transform that the focus of the page address asks for,
    once its target is positioned at (x, y), has scale 2.5 and shows
    the target at the middle of the canvas displaced by 1.5 (x, y);
    the request changes nothing else of the view. *)
Theorem mount_focus_placement
        (v : Focus.View) (i : nat) (width height : R)
        (targetNode : GraphNode.t) (px py : R) :
  Focus.clone v i = Some targetNode ->
  GraphNode.x targetNode = Num px ->
  GraphNode.y targetNode = Num py ->
  let v' := Focus.focusOnTargetNode i width height v in
  Zoom.k (Focus.transform v') = (5 / 2)%R /\
  Viewport.applyTransform (Focus.transform v') (px, py)
  = ((width / 2 + 3 / 2 * px)%R, (height / 2 + 3 / 2 * py)%R) /\
  v' = Focus.setTransform (Focus.transform v') v.
Proof.
  intros Hc Hx Hy. unfold Focus.focusOnTargetNode.
  rewrite Hc. unfold Focus.positioned. rewrite Hx, Hy.
  cbn [defined andb toNumber Focus.setTransform Focus.transform].
  split.
  - unfold Zoom.scale, Zoom.translate, Zoom.zoomIdentity.
    cbn [Zoom.k]. lra.
  - split; [apply mount_focus_lands | reflexivity].
Qed.

(** X15, on the target r1, which the simulation has placed at
    (10, 20), in a canvas of 1200 by 800. *)
Lemma mount_focus_placement_witness :
  let r1 := GraphNode.mk "r1" "Result" None None None None (Some "p9") None
              Undefined (Num 10) (Num 20) Undefined Undefined Undefined
              Undefined in
  let v := Focus.mkView (Some (GraphData.mk [r1] [])) true true (Some [r1])
             (Num 1200) (Num 800) (Some r1) false false Zoom.zoomIdentity [] in
  Viewport.applyTransform
    (Focus.transform (Focus.focusOnTargetNode 0 1200 800 v)) (10, 20)%R
  = ((1200 / 2 + 3 / 2 * 10)%R, (800 / 2 + 3 / 2 * 20)%R).
Proof.
  intros r1 v.
  destruct (mount_focus_placement v 0 1200 800 r1 10 20 eq_refl eq_refl
              eq_refl) as (_ & H & _).
  exact H.
Defined.

(** X16: a click on a connection (or on a neighbour in the local
    graph) whose node has a clone in the simulation at (x, y) sets a
    transform of scale 2.5 that shows the clone at the fixed point
    (960, 540), whatever the size of the container. *)
Theorem connection_focus_fixed_point
        (v : Focus.View) (g : GraphData.t) (nodeId : string)
        (node simulationNode : GraphNode.t) (nodes : list GraphNode.t)
        (px py : R) :
  Focus.graphData v = Some g ->
  Focus.svgMounted v = true ->
  Focus.zoomBehavior v = true ->
  findById (GraphData.nodes g) nodeId = Some node ->
  Focus.simulationNodes v = Some nodes ->
  findById nodes nodeId = Some simulationNode ->
  GraphNode.x simulationNode = Num px ->
  GraphNode.y simulationNode = Num py ->
  let v' := Viewport.focusOnNode nodeId v in
  Viewport.applyTransform (Focus.transform v') (px, py) = (960, 540)%R /\
  Zoom.k (Focus.transform v') = (5 / 2)%R.
Proof.
  intros Hg Hsvg Hzoom Hfind Hsim Hclone Hx Hy.
  unfold Viewport.focusOnNode.
  rewrite Hg, Hfind, Hsvg, Hzoom, Hsim, Hclone, Hx, Hy, !orElse_zero.
  cbn [andb Focus.setSelected Focus.setTransform Focus.transform].
  apply zoomTo_centres.
Qed.

(** X16, on the node A placed at (10, 20), in a container of 600 by
    400. *)
Lemma connection_focus_fixed_point_witness :
  let a := GraphNode.plain "A" "Paper" in
  let a' := GraphNode.set_pos (Num 10) (Num 20) a in
  let v := Focus.mkView (Some (GraphData.mk [a] [])) true true (Some [a'])
             (Num 600) (Num 400) None false false Zoom.zoomIdentity [] in
  Viewport.applyTransform
    (Focus.transform (Viewport.focusOnNode "A" v)) (10, 20)%R
  = (960, 540)%R /\
  Zoom.k (Focus.transform (Viewport.focusOnNode "A" v)) = (5 / 2)%R.
Proof.
  intros a a' v.
  apply (connection_focus_fixed_point v (GraphData.mk [a] []) "A" a a' [a']
           10 20); reflexivity.
Defined.

(** X17: a click on a node of the canvas selects it, collapses the
    full-content and local-graph views, and sets a transform of scale
    2.5 that shows the node's position in the middle of the canvas. *)
Theorem node_click_centres (d : GraphNode.t) (width height px py : R)
        (v : Focus.View) :
  GraphNode.x d = Num px ->
  GraphNode.y d = Num py ->
  let v' := Viewport.clickNode d width height v in
  Focus.selectedNode v' = Some d /\
  Focus.showFullContent v' = false /\
  Focus.showLocalGraph v' = false /\
  Zoom.k (Focus.transform v') = (5 / 2)%R /\
  Viewport.applyTransform (Focus.transform v') (px, py)
  = ((width / 2)%R, (height / 2)%R).
Proof.
  intros Hx Hy. unfold Viewport.clickNode.
  rewrite Hx, Hy, !orElse_zero.
  cbn [Focus.setSelected Focus.setTransform Focus.transform
       Focus.selectedNode Focus.showFullContent Focus.showLocalGraph].
  destruct (zoomTo_centres (width / 2) (height / 2) px py) as [H1 H2].
  repeat split; assumption.
Qed.

(** X17, on the node A at (10, 20) in a canvas of 1200 by 800. *)
Lemma node_click_centres_witness :
  let a := GraphNode.set_pos (Num 10) (Num 20) (GraphNode.plain "A" "Paper") in
  let v := Focus.mkView None true true None (Num 1200) (Num 800)
             None true true Zoom.zoomIdentity [] in
  Focus.selectedNode (Viewport.clickNode a 1200 800 v) = Some a /\
  Viewport.applyTransform
    (Focus.transform (Viewport.clickNode a 1200 800 v)) (10, 20)%R
  = ((1200 / 2)%R, (800 / 2)%R).
Proof.
  intros a v.
  destruct (node_click_centres a 1200 800 10 20 v eq_refl eq_refl)
    as (H1 & _ & _ & _ & H5).
  split; [exact H1 | exact H5].
Defined.

Lemma focus_scale_in_extent (cx cy x y : R) :
  Viewport.inExtent (Viewport.zoomTo cx cy x y).
Proof.
  unfold Viewport.inExtent, Zoom.scaleExtent.
  rewrite (proj2 (zoomTo_centres cx cy x y)). simpl. lra.
Qed.

Lemma performFocus_in_extent (sn : option nat) (tn : GraphNode.t)
      (v : Focus.View) :
  Viewport.inExtent (Focus.transform v) ->
  Viewport.inExtent (Focus.transform (Focus.performFocus sn tn v)).
Proof.
  intros H. unfold Focus.performFocus.
  destruct (Focus.positioned _); [|exact H].
  apply (focus_scale_in_extent _ _ _ _).
Qed.

Lemma focusOnTargetNode_in_extent (i : nat) (width height : R)
      (v : Focus.View) :
  Viewport.inExtent (Focus.transform v) ->
  Viewport.inExtent
    (Focus.transform (Focus.focusOnTargetNode i width height v)).
Proof.
  intros H. unfold Focus.focusOnTargetNode.
  destruct (Focus.clone v i) as [n|]; [|exact H].
  destruct (Focus.positioned n); [|exact H].
  unfold Viewport.inExtent, Zoom.scaleExtent, Zoom.scale, Zoom.translate,
    Zoom.zoomIdentity.
  cbn [Focus.setTransform Focus.transform Zoom.k fst snd]. lra.
Qed.

Lemma fire_in_extent (v : Focus.View) :
  Viewport.inExtent (Focus.transform v) ->
  Viewport.inExtent (Focus.transform (Focus.fire v)).
Proof.
  intros H. unfold Focus.fire.
  destruct (Focus.timers v) as [|[delay cb] rest]; [exact H|].
  assert (Hd : Viewport.inExtent (Focus.transform (Focus.dropTimer v)))
    by exact H.
  destruct cb as [sn tn a | tn w h a].
  - unfold Focus.tryFocusSearch.
    destruct (Focus.positioned _); [now apply performFocus_in_extent|].
    destruct (S a <? 8)%nat; exact Hd.
  - unfold Focus.tryFocusMount.
    destruct (match Focus.clone _ tn with Some n => _ | None => false end);
      [now apply focusOnTargetNode_in_extent|].
    destruct (S a <? Focus.maxAttempts)%nat; exact Hd.
Qed.

Lemma step_in_extent (v : Focus.View) (e : Viewport.Event) :
  Viewport.inExtent (Focus.transform v) ->
  Viewport.inExtent (Focus.transform (Viewport.step v e)).
Proof.
  intros H. destruct e as [factor dx dy | d w h | nodeId | nodeId | f w h | | |];
    cbn [Viewport.step].
  - cbn [Focus.setTransform Focus.transform].
    unfold Viewport.inExtent, Zoom.viewportAfterGesture, Zoom.onZoom,
      Zoom.userZoom, Zoom.applyUserPanZoom.
    cbn [Zoom.k]. split; [apply Rmax_l|].
    apply Rmax_lub; [unfold Zoom.scaleExtent; simpl; lra | apply Rmin_l].
  - unfold Viewport.clickNode. cbn [Focus.setTransform Focus.transform].
    apply focus_scale_in_extent.
  - unfold Focus.focusOnNodeFromSearch.
    destruct (Focus.graphData v) as [g|]; [|exact H].
    destruct (negb (Focus.svgMounted v)); [exact H|].
    destruct (findById _ nodeId) as [tn|]; [|exact H].
    destruct (Focus.zoomBehavior v); [|exact H].
    set (v1 := Focus.setSelected tn true v).
    assert (H1 : Viewport.inExtent (Focus.transform v1)) by exact H.
    destruct (match Focus.simulationNodes v1 with
              | Some nodes => _
              | None => None
              end) as [i|]; [|exact H1].
    destruct (match Focus.clone v1 i with
              | Some n => _
              | None => false
              end); [now apply performFocus_in_extent | exact H1].
  - unfold Viewport.focusOnNode.
    destruct (Focus.graphData v) as [g|]; [|exact H].
    destruct (findById _ nodeId) as [node|]; [|exact H].
    destruct (Focus.svgMounted v && Focus.zoomBehavior v); [|exact H].
    destruct (Focus.simulationNodes v) as [nodes|]; [|exact H].
    destruct (findById nodes nodeId) as [sn|]; [|exact H].
    cbn [Focus.setSelected Focus.setTransform Focus.transform].
    apply focus_scale_in_extent.
  - unfold Focus.focusOnMount.
    destruct f as [f|]; [|exact H].
    destruct (truthy (Some f)); [|exact H].
    destruct (Focus.simulationNodes v) as [nodes|]; [|exact H].
    destruct (Focus.findIndex _ nodes) as [i|]; [|exact H].
    destruct (nth_error nodes i); exact H.
  - unfold Viewport.resetZoom.
    destruct (Focus.svgMounted v && Focus.zoomBehavior v); [|exact H].
    unfold Viewport.inExtent, Zoom.scaleExtent, Zoom.zoomIdentity.
    cbn [Focus.setTransform Focus.transform Zoom.k fst snd]. lra.
  - exact H.
  - now apply fire_in_extent.
Qed.

(** X18: the scale of the viewport stays within the configured
    bounds 0.1 and 4 through every sequence of user gestures, clicks on
    nodes, focus requests (search panel, connections, page address),
    resets, closings of the detail panel and polling timers, starting
    from any transform within the bounds. *)
Theorem viewport_scale_invariant (v : Focus.View) (es : list Viewport.Event) :
  Viewport.inExtent (Focus.transform v) ->
  Viewport.inExtent (Focus.transform (Viewport.run v es)).
Proof.
  revert v. induction es as [|e es IH]; intros v H; [exact H|].
  change (Viewport.run v (e :: es)) with (Viewport.run (Viewport.step v e) es).
  apply IH. now apply step_in_extent.
Qed.

(** X18, from the identity transform: a zoom by 1000, a reset, a
    focus from the search panel and a timer. *)
Lemma viewport_scale_invariant_witness :
  let a := GraphNode.plain "A" "Paper" in
  let v := Focus.mkView (Some (GraphData.mk [a] [])) true true None
             (Num 1200) (Num 800) None false false Zoom.zoomIdentity [] in
  Viewport.inExtent
    (Focus.transform
       (Viewport.run v [Viewport.Gesture 1000 0 0; Viewport.Reset;
                        Viewport.SearchFocus "A"; Viewport.TimerFires])).
Proof.
  intros a v. apply viewport_scale_invariant.
  unfold Viewport.inExtent, Zoom.scaleExtent. simpl. lra.
Defined.

(** X19: a focus from the search panel on a node of the graph that
    has no position, while no simulation is running, selects the node
    and polls: after the first look (100 ms) it looks again every
    250 ms, eight looks in all, and then gives up; the view is then the
    one right after the selection, the transform untouched. *)
Theorem search_focus_polls_eight_times
        (v : Focus.View) (g : GraphData.t) (nodeId : string)
        (targetNode : GraphNode.t) :
  Focus.graphData v = Some g ->
  Focus.svgMounted v = true ->
  Focus.zoomBehavior v = true ->
  Focus.simulationNodes v = None ->
  findById (GraphData.nodes g) nodeId = Some targetNode ->
  Focus.positioned targetNode = false ->
  Focus.timers v = [] ->
  let v' := Focus.focusOnNodeFromSearch nodeId v in
  Focus.timers v' = [(100%nat, Focus.TryFocusSearch None targetNode 0)] /\
  Focus.timers (Focus.fireMany 7 v')
  = [(250%nat, Focus.TryFocusSearch None targetNode 7)] /\
  Focus.fireMany 8 v' = Focus.setSelected targetNode true v.
Proof.
  intros Hg Hsvg Hzoom Hsim Hfind Hpos Hidle.
  unfold Focus.focusOnNodeFromSearch.
  rewrite Hg, Hsvg, Hfind, Hzoom. cbn [negb].
  replace (Focus.simulationNodes (Focus.setSelected targetNode true v))
    with (@None (list GraphNode.t)) by (symmetry; exact Hsim).
  assert (Hidle' : Focus.timers (Focus.setSelected targetNode true v) = [])
    by exact Hidle.
  split.
  - unfold Focus.setTimeout. cbn [Focus.timers]. now rewrite Hidle'.
  - apply (search_polling_gives_up _ _ Hpos Hidle').
Qed.

(** X19, on the graph with the single node A. *)
Lemma search_focus_polls_eight_times_witness :
  let a := GraphNode.plain "A" "Paper" in
  let v := Focus.mkView (Some (GraphData.mk [a] [])) true true None
             (Num 1200) (Num 800) None false false Zoom.zoomIdentity [] in
  Focus.fireMany 8 (Focus.focusOnNodeFromSearch "A" v)
  = Focus.setSelected a true v.
Proof.
  intros a v.
  apply (search_focus_polls_eight_times v (GraphData.mk [a] []) "A" a);
    reflexivity.
Defined.

(** ** The panel and its local graph *)

(** X21: the canvas of the local graph is at least 280 wide and
    between 250 and 400 high, whatever the width of the panel; for a
    panel of 320 or more it is the panel width less 40. *)
Theorem local_canvas_bounds (panelWidth : R) :
  (280 <= fst (LocalGraph.panelSize panelWidth))%R /\
  (250 <= snd (LocalGraph.panelSize panelWidth) <= 400)%R /\
  ((320 <= panelWidth)%R ->
   fst (LocalGraph.panelSize panelWidth) = (panelWidth - 40)%R).
Proof.
  unfold LocalGraph.panelSize. cbn [fst snd]. split; [apply Rmax_l|].
  split.
  - split; [apply Rmax_l|]. apply Rmax_lub; [lra | apply Rmin_l].
  - intros H. apply Rmax_right. lra.
Qed.

(** X21, on the initial panel width 384. *)
Lemma local_canvas_bounds_witness :
  fst (LocalGraph.panelSize 384) = (384 - 40)%R.
Proof.
  destruct (local_canvas_bounds 384) as (_ & _ & H). apply H. lra.
Defined.

(** X22: while the panel is being resized its width follows the
    pointer but never goes below 300; when 80 percent of the window
    width is at least 300 it never exceeds that either, and it is the
    distance of the pointer from the right edge whenever that distance
    lies between the two bounds.  Outside a resize the width is left
    alone. *)
Theorem panel_width_clamped (innerWidth clientX panelWidth : R) :
  (300 <= PanelResize.handleMouseMove true innerWidth clientX panelWidth)%R /\
  ((300 <= innerWidth * (8 / 10))%R ->
   (PanelResize.handleMouseMove true innerWidth clientX panelWidth
    <= innerWidth * (8 / 10))%R /\
   ((300 <= innerWidth - clientX <= innerWidth * (8 / 10))%R ->
    PanelResize.handleMouseMove true innerWidth clientX panelWidth
    = (innerWidth - clientX)%R)) /\
  PanelResize.handleMouseMove false innerWidth clientX panelWidth = panelWidth.
Proof.
  unfold PanelResize.handleMouseMove. split; [apply Rmax_l|].
  split; [|reflexivity]. intros Hw. split.
  - apply Rmax_lub; [exact Hw | apply Rmin_l].
  - intros [H1 H2]. rewrite Rmin_right by exact H2.
    now apply Rmax_right.
Qed.

(** X22, in a window 1000 wide with the pointer at 600. *)
Lemma panel_width_clamped_witness :
  PanelResize.handleMouseMove true 1000 600 384 = (1000 - 600)%R.
Proof.
  destruct (panel_width_clamped 1000 600 384) as (_ & H & _).
  destruct H as [_ H]; [lra|]. apply H. lra.
Defined.

Section LocalGraphCopies.

Import LocalGraph.

Lemma allocAll_fresh_distinct (ns : list GraphNode.t) :
  forall (s s' : store) (ls : list loc),
    allocAll s ns = (s', ls) ->
    List.NoDup ls /\ (forall l, In l ls -> is_Some (s' !! l)).
Proof.
  induction ns as [|n r IH]; intros s s' ls H; cbn [allocAll] in H.
  - injection H as <- <-. split; [constructor | intros l []].
  - destruct (alloc s n) as [s1 l0] eqn:Ha.
    destruct (allocAll s1 r) as [s2 ls'] eqn:Hr.
    injection H as <- <-.
    apply alloc_spec in Ha as [Hfresh ->].
    destruct (IH _ _ _ Hr) as [Hnd Hall].
    destruct (allocAll_spec _ _ _ _ Hr) as (Hnew & Hkeep & _ & _).
    split.
    + constructor; [|exact Hnd].
      intros Hin. apply list_elem_of_In in Hin. apply Hnew in Hin.
      rewrite lookup_insert_eq in Hin. discriminate.
    + intros l [<- | Hl]; [|now apply Hall].
      exists n. apply Hkeep. apply lookup_insert_eq.
Qed.

Lemma writeAll_dom (ls : list loc) :
  forall (ns : list GraphNode.t) (s : store) (k : loc),
    is_Some (s !! k) -> is_Some (writeAll s ls ns !! k).
Proof.
  induction ls as [|l ls IH]; intros ns s k Hk; simpl; [exact Hk|].
  destruct ns as [|n ns]; [exact Hk|].
  apply IH. destruct (decide (l = k)) as [-> | Hne].
  - rewrite lookup_insert_eq. now eexists.
  - now rewrite lookup_insert_ne.
Qed.

Lemma writeAll_read (ls : list loc) :
  forall (ns : list GraphNode.t) (s : store),
    List.NoDup ls -> List.length ls = List.length ns ->
    forall i l, ls !! i = Some l -> writeAll s ls ns !! l = ns !! i.
Proof.
  induction ls as [|l0 ls IH]; intros ns s Hnd Hlen i l Hi;
    [destruct i; discriminate|].
  destruct ns as [|n ns]; [discriminate|].
  inversion Hnd as [|? ? Hl0 Hrest]; subst.
  cbn [writeAll]. destruct i as [|i]; simpl in Hi.
  - injection Hi as <-. rewrite writeAll_frame.
    + simpl. apply lookup_insert_eq.
    + intros Hin. apply Hl0. now apply list_elem_of_In.
  - simpl. apply IH; [exact Hrest | simpl in Hlen; lia | exact Hi].
Qed.

Lemma releasePin_dom (s : store) (p : Panel) (k : loc) :
  is_Some (s !! k) -> is_Some (releasePin s p !! k).
Proof.
  intros Hk. unfold releasePin.
  destruct (s !! selectedNode p); [|exact Hk].
  destruct (findLoc s _ (nodesCopy p)) as [c|]; [|exact Hk].
  destruct (s !! c) as [n|]; [|exact Hk].
  destruct (decide (c = k)) as [-> | Hne].
  - rewrite lookup_insert_eq. now eexists.
  - now rewrite lookup_insert_ne.
Qed.

Lemma onTick_dom (forces : list GraphNode.t -> list GraphNode.t)
      (s : store) (p : Panel) (k : loc) :
  is_Some (s !! k) -> is_Some (onTick forces s p !! k).
Proof.
  intros Hk. unfold onTick.
  destruct (readAll s (nodesCopy p)) as [values|]; [|exact Hk].
  destruct (readAll _ (nodesCopy p)) as [moved|];
    repeat apply writeAll_dom; exact Hk.
Qed.

Lemma run_keeps_panel (es : list Event) :
  forall (s : store) (p : Panel),
    nodesCopy (snd (run (s, p) es)) = nodesCopy p /\
    width (snd (run (s, p) es)) = width p /\
    height (snd (run (s, p) es)) = height p /\
    (forall k, is_Some (s !! k) -> is_Some (fst (run (s, p) es) !! k)).
Proof.
  induction es as [|e es IH]; intros s p; [repeat split; auto|].
  change (run (s, p) (e :: es)) with (run (step (s, p) e) es).
  assert (Hs : nodesCopy (snd (step (s, p) e)) = nodesCopy p /\
               width (snd (step (s, p) e)) = width p /\
               height (snd (step (s, p) e)) = height p /\
               (forall k, is_Some (s !! k) ->
                          is_Some (fst (step (s, p) e) !! k))).
  { destruct e as [forces| |]; cbn [step].
    - destruct (running p); cbn [fst snd]; repeat split; auto.
      intros k Hk. now apply onTick_dom.
    - cbn [fst snd]. repeat split. intros k Hk. now apply releasePin_dom.
    - cbn [fst snd nodesCopy width height]. repeat split; auto. }
  destruct (step (s, p) e) as [s1 p1]. cbn [fst snd] in Hs.
  destruct Hs as (H1 & H2 & H3 & H4).
  destruct (IH s1 p1) as (I1 & I2 & I3 & I4).
  rewrite I1, I2, I3, H1, H2, H3. repeat split. intros k Hk. auto.
Qed.

Lemma keepInBounds_bounds (w h : R) (d : GraphNode.t) :
  (50 <= w)%R -> (50 <= h)%R ->
  exists px py,
    GraphNode.x (keepInBounds w h d) = Num px /\
    GraphNode.y (keepInBounds w h d) = Num py /\
    (25 <= px <= w - 25)%R /\ (25 <= py <= h - 25)%R.
Proof.
  intros Hw Hh. unfold keepInBounds.
  eexists. eexists. split; [reflexivity|]. split; [reflexivity|].
  split; (split; [apply Rmax_l | apply Rmax_lub; [lra | apply Rmin_l]]).
Qed.

Lemma onTick_in_bounds (forces : list GraphNode.t -> list GraphNode.t)
      (s : store) (p : Panel) (l : loc) :
  List.NoDup (nodesCopy p) ->
  (forall k, In k (nodesCopy p) -> is_Some (s !! k)) ->
  (50 <= width p)%R -> (50 <= height p)%R ->
  In l (nodesCopy p) ->
  exists n px py,
    onTick forces s p !! l = Some n /\
    GraphNode.x n = Num px /\ GraphNode.y n = Num py /\
    (25 <= px <= width p - 25)%R /\ (25 <= py <= height p - 25)%R.
Proof.
  intros Hnd Hall Hw Hh Hl. unfold onTick.
  destruct (readAll_total s (nodesCopy p)) as [values Hv].
  { intros k Hk. apply Hall. now apply list_elem_of_In. }
  rewrite Hv.
  set (s1 := writeAll s (nodesCopy p) (forces values)).
  destruct (readAll_total s1 (nodesCopy p)) as [moved Hm].
  { intros k Hk. apply writeAll_dom, Hall. now apply list_elem_of_In. }
  rewrite Hm.
  destruct (readAll_lookup _ _ _ Hm) as [Hlen _].
  apply list_elem_of_In, list_elem_of_lookup in Hl as [i Hi].
  rewrite (writeAll_read _ _ _ Hnd
             (eq_trans (eq_sym Hlen) (eq_sym (length_map _ _))) i l Hi).
  destruct (moved !! i) as [d|] eqn:Hd.
  - rewrite list_lookup_fmap_Some_2 with (x := d) by exact Hd.
    destruct (keepInBounds_bounds (width p) (height p) d Hw Hh)
      as (px & py & Hx & Hy & Hbx & Hby).
    exists (keepInBounds (width p) (height p) d), px, py. tauto.
  - apply lookup_ge_None in Hd. apply lookup_lt_Some in Hi. lia.
Qed.

End LocalGraphCopies.

Lemma local_canvas_size (panelWidth : R) :
  (280 <= fst (LocalGraph.panelSize panelWidth))%R /\
  (250 <= snd (LocalGraph.panelSize panelWidth))%R.
Proof. unfold LocalGraph.panelSize. split; apply Rmax_l. Qed.

Lemma createLocalGraph_started
      (s s' : gmap nat GraphNode.t) (selectedNode : option nat)
      (svgMounted showLocalGraph : bool)
      (incoming outgoing : list LocalGraph.Connection) (panelWidth : R)
      (p : LocalGraph.Panel) :
  LocalGraph.createLocalGraph s selectedNode svgMounted showLocalGraph
    incoming outgoing panelWidth = Some (s', LocalGraph.Started p) ->
  exists sel selected values,
    selectedNode = Some sel /\ svgMounted = true /\ showLocalGraph = true /\
    s !! sel = Some selected /\
    LocalGraph.readAll s (LocalGraph.localNodesOf sel incoming outgoing)
    = Some values /\
    LocalGraph.allocAll s
      (LocalGraph.initialNodes (fst (LocalGraph.panelSize panelWidth))
         (snd (LocalGraph.panelSize panelWidth)) (GraphNode.id selected)
         values)
    = (s', LocalGraph.nodesCopy p) /\
    LocalGraph.selectedNode p = sel /\
    LocalGraph.width p = fst (LocalGraph.panelSize panelWidth) /\
    LocalGraph.height p = snd (LocalGraph.panelSize panelWidth) /\
    LocalGraph.running p = true.
Proof.
  unfold LocalGraph.createLocalGraph. intros H.
  destruct selectedNode as [sel|]; [|discriminate].
  destruct svgMounted; [|discriminate].
  destruct showLocalGraph; [|discriminate].
  cbn [negb orb] in H.
  destruct (LocalGraph.panelSize panelWidth) as [w h].
  destruct (List.length _ <=? 1)%nat; [discriminate|].
  destruct (LocalGraph.readAll s _) as [values|] eqn:Hr; [|discriminate].
  destruct (s !! sel) as [selected|] eqn:Hsel; [|discriminate].
  destruct (LocalGraph.allocAll s _) as [s2 copies] eqn:Ha.
  injection H as <- <-.
  exists sel, selected, values. cbn [fst snd]. repeat split; auto.
Qed.

(** X23: after every tick of a running local simulation each copy
    lies inside the panel with a margin of 25: its x is between 25 and
    the canvas width less 25, its y between 25 and the canvas height
    less 25, whatever the forces did and whatever ticks and timers came
    before. *)
Theorem local_tick_keeps_copies_in_panel
        (s s' : gmap nat GraphNode.t) (selectedNode : option nat)
        (svgMounted showLocalGraph : bool)
        (incoming outgoing : list LocalGraph.Connection) (panelWidth : R)
        (p : LocalGraph.Panel) (es : list LocalGraph.Event)
        (forces : list GraphNode.t -> list GraphNode.t) (l : nat) :
  LocalGraph.createLocalGraph s selectedNode svgMounted showLocalGraph
    incoming outgoing panelWidth = Some (s', LocalGraph.Started p) ->
  In l (LocalGraph.nodesCopy p) ->
  let before := LocalGraph.run (s', p) es in
  exists n px py,
    LocalGraph.onTick forces (fst before) (snd before) !! l = Some n /\
    GraphNode.x n = Num px /\ GraphNode.y n = Num py /\
    (25 <= px <= fst (LocalGraph.panelSize panelWidth) - 25)%R /\
    (25 <= py <= snd (LocalGraph.panelSize panelWidth) - 25)%R.
Proof.
  intros Hc Hl before.
  destruct (createLocalGraph_started _ _ _ _ _ _ _ _ _ Hc)
    as (sel & selected & values & _ & _ & _ & _ & _ & Ha & _ & Hw & Hh & _).
  destruct (allocAll_fresh_distinct _ _ _ _ Ha) as [Hnd Hall].
  destruct (run_keeps_panel es s' p) as (Hn & Hw' & Hh' & Hdom).
  fold before in Hn, Hw', Hh', Hdom.
  destruct (local_canvas_size panelWidth) as [Hbw Hbh].
  rewrite <- Hw, <- Hh, <- Hw', <- Hh'.
  apply onTick_in_bounds.
  - now rewrite Hn.
  - rewrite Hn. intros k Hk. now apply Hdom, Hall.
  - rewrite Hw', Hw. lra.
  - rewrite Hh', Hh. lra.
  - now rewrite Hn.
Qed.

Lemma createLocalGraph_starts
      (s : gmap nat GraphNode.t) (sel : nat)
      (incoming outgoing : list LocalGraph.Connection) (panelWidth : R) :
  (forall l, In l (LocalGraph.localNodesOf sel incoming outgoing) ->
             is_Some (s !! l)) ->
  (0 < List.length incoming + List.length outgoing)%nat ->
  exists s' p,
    LocalGraph.createLocalGraph s (Some sel) true true incoming outgoing
      panelWidth = Some (s', LocalGraph.Started p).
Proof.
  intros Hall Hpos. unfold LocalGraph.createLocalGraph. cbn [negb orb].
  destruct (LocalGraph.panelSize panelWidth) as [w h].
  assert (Hlen : (List.length (LocalGraph.localNodesOf sel incoming outgoing)
                  <=? 1)%nat = false).
  { apply Nat.leb_gt. unfold LocalGraph.localNodesOf. simpl.
    rewrite length_app, !length_map. lia. }
  rewrite Hlen.
  destruct (readAll_total s (LocalGraph.localNodesOf sel incoming outgoing))
    as [values ->].
  { intros l Hl. apply Hall. now apply list_elem_of_In. }
  destruct (Hall sel (or_introl eq_refl)) as [selected ->].
  destruct (LocalGraph.allocAll s _) as [s' copies].
  now eexists _, _.
Qed.

(** X23, on a store holding the nodes A and B, with B an outgoing
    neighbour of the selected A: after a tick whose forces throw every
    copy to (-500, 9000), each copy is inside the panel. *)
Lemma local_tick_keeps_copies_in_panel_witness :
  let a := GraphNode.plain "A" "Paper" in
  let b := GraphNode.plain "B" "Entity" in
  let s : gmap nat GraphNode.t := <[0%nat := a]> (<[1%nat := b]> ∅) in
  let out := [LocalGraph.mkConnection 1 (GraphEdge.mk "A" "B" None None)] in
  let forces := List.map (GraphNode.set_pos (Num (-500)) (Num 9000)) in
  exists s' p,
    LocalGraph.createLocalGraph s (Some 0%nat) true true [] out 384
    = Some (s', LocalGraph.Started p) /\
    forall l, In l (LocalGraph.nodesCopy p) ->
      exists n px py,
        LocalGraph.onTick forces s' p !! l = Some n /\
        GraphNode.x n = Num px /\ GraphNode.y n = Num py /\
        (25 <= px <= fst (LocalGraph.panelSize 384) - 25)%R /\
        (25 <= py <= snd (LocalGraph.panelSize 384) - 25)%R.
Proof.
  intros a b s out forces.
  destruct (createLocalGraph_starts s 0%nat [] out 384) as (s' & p & Hc).
  { intros l [<- | [<- | []]]; now eexists. }
  { simpl. lia. }
  exists s', p. split; [exact Hc|]. intros l Hl.
  exact (local_tick_keeps_copies_in_panel _ _ _ _ _ _ _ _ _ [] forces l Hc Hl).
Defined.

(** X24: with the panel's canvas mounted as the page mounts it, only
    while the local graph is shown and the selection has a connection,
    creating the local graph never takes the branch that draws a lone
    node with the note about no connections: nothing is shown or a
    simulation is started. *)
Theorem lone_node_branch_not_taken
        (s : gmap nat GraphNode.t) (selectedNode : option nat)
        (showLocalGraph : bool)
        (incoming outgoing : list LocalGraph.Connection) (panelWidth : R)
        (created : gmap nat GraphNode.t * LocalGraph.Outcome) :
  LocalGraph.createLocalGraph s selectedNode
    (PanelResize.localSvgMounted showLocalGraph incoming outgoing)
    showLocalGraph incoming outgoing panelWidth = Some created ->
  snd created = LocalGraph.NotShown \/
  exists p, snd created = LocalGraph.Started p.
Proof.
  unfold LocalGraph.createLocalGraph, PanelResize.localSvgMounted.
  intros H.
  destruct selectedNode as [sel|]; [|injection H as <-; now left].
  destruct showLocalGraph; cbn [andb negb orb] in H;
    [|injection H as <-; now left].
  destruct (0 <? List.length incoming + List.length outgoing)%nat eqn:Hpos;
    cbn [negb orb] in H; [|injection H as <-; now left].
  apply Nat.ltb_lt in Hpos.
  destruct (LocalGraph.panelSize panelWidth) as [w h].
  assert (Hlen : (List.length (LocalGraph.localNodesOf sel incoming outgoing)
                  <=? 1)%nat = false).
  { apply Nat.leb_gt. unfold LocalGraph.localNodesOf. simpl.
    rewrite length_app, !length_map. lia. }
  rewrite Hlen in H.
  destruct (LocalGraph.readAll s _); [|discriminate].
  destruct (s !! sel); [|discriminate].
  destruct (LocalGraph.allocAll s _) as [s' copies].
  injection H as <-. right. now eexists.
Qed.

(** X24, on a selected node without connections and the local graph
    asked for. *)
Lemma lone_node_branch_not_taken_witness :
  let s : gmap nat GraphNode.t := <[0%nat := GraphNode.plain "A" "Paper"]> ∅ in
  snd (s, LocalGraph.NotShown) = LocalGraph.NotShown \/
  exists p, snd (s, LocalGraph.NotShown) = LocalGraph.Started p.
Proof.
  intros s.
  apply (lone_node_branch_not_taken s (Some 0%nat) true [] [] 384
           (s, LocalGraph.NotShown)).
  reflexivity.
Defined.

(** X25: a started local graph has one copy per local node, the
    selected node first, then the incoming and the outgoing neighbours;
    the copies are pairwise distinct objects that did not exist before,
    and each carries the id and the type of the node it copies. *)
Theorem local_copies_are_new_objects
        (s s' : gmap nat GraphNode.t) (sel : nat)
        (incoming outgoing : list LocalGraph.Connection) (panelWidth : R)
        (p : LocalGraph.Panel) :
  LocalGraph.createLocalGraph s (Some sel) true true incoming outgoing
    panelWidth = Some (s', LocalGraph.Started p) ->
  List.length (LocalGraph.nodesCopy p)
  = S (List.length incoming + List.length outgoing) /\
  List.NoDup (LocalGraph.nodesCopy p) /\
  (forall l, In l (LocalGraph.nodesCopy p) -> s !! l = None) /\
  (forall j l d,
      LocalGraph.localNodesOf sel incoming outgoing !! j = Some l ->
      s !! l = Some d ->
      exists lc c,
        LocalGraph.nodesCopy p !! j = Some lc /\ s' !! lc = Some c /\
        GraphNode.id c = GraphNode.id d /\
        GraphNode.type c = GraphNode.type d).
Proof.
  intros Hc.
  destruct (createLocalGraph_started _ _ _ _ _ _ _ _ _ Hc)
    as (sel' & selected & values & Hsel & _ & _ & Hs & Hr & Ha & _).
  injection Hsel as <-.
  destruct (allocAll_fresh_distinct _ _ _ _ Ha) as [Hnd _].
  destruct (allocAll_spec _ _ _ _ Ha) as (Hnew & _ & _ & Hlen).
  destruct (readAll_lookup _ _ _ Hr) as [Hlv _].
  split; [|split; [exact Hnd | split]].
  - rewrite Hlen. unfold LocalGraph.initialNodes.
    assert (Hm : forall (i : nat) (l : list GraphNode.t)
                        (f : nat -> GraphNode.t -> GraphNode.t),
               List.length (LocalGraph.mapi_from f i l) = List.length l).
    { intros i l f. revert i.
      induction l as [|x l IH]; intros i; simpl; [reflexivity|].
      now rewrite IH. }
    rewrite Hm, Hlv. unfold LocalGraph.localNodesOf. simpl.
    now rewrite length_app, !length_map.
  - intros l Hl. apply Hnew. now apply list_elem_of_In.
  - intros j l d Hj Hd.
    destruct (createLocalGraph_copies _ _ _ _ _ _ _ _ Hc Hs j l d Hj Hd)
      as [lc [H1 H2]].
    eexists lc, _. split; [exact H1|]. split; [exact H2|].
    unfold LocalGraph.initialNode.
    destruct (String.eqb (GraphNode.id d) (GraphNode.id selected));
      split; reflexivity.
Qed.

(** X25, on a store holding the nodes A and B, with B an outgoing
    neighbour of the selected A: two copies. *)
Lemma local_copies_are_new_objects_witness :
  let a := GraphNode.plain "A" "Paper" in
  let b := GraphNode.plain "B" "Entity" in
  let s : gmap nat GraphNode.t := <[0%nat := a]> (<[1%nat := b]> ∅) in
  let out := [LocalGraph.mkConnection 1 (GraphEdge.mk "A" "B" None None)] in
  exists s' p,
    LocalGraph.createLocalGraph s (Some 0%nat) true true [] out 384
    = Some (s', LocalGraph.Started p) /\
    List.length (LocalGraph.nodesCopy p) = 2%nat /\
    List.NoDup (LocalGraph.nodesCopy p).
Proof.
  intros a b s out.
  destruct (createLocalGraph_starts s 0%nat [] out 384) as (s' & p & Hc).
  { intros l [<- | [<- | []]]; now eexists. }
  { simpl. lia. }
  exists s', p. split; [exact Hc|].
  destruct (local_copies_are_new_objects _ _ _ _ _ _ _ Hc) as (H1 & H2 & _).
  split; [exact H1 | exact H2].
Defined.

(** X26: when the pin-release timer of a freshly created local graph
    fires, the copy of the selected node, the first copy, loses its pin
    and keeps its place at the centre of the canvas; no other object is
    touched. *)
Theorem pin_release_unpins_centre
        (s s' : gmap nat GraphNode.t) (sel : nat)
        (incoming outgoing : list LocalGraph.Connection) (panelWidth : R)
        (p : LocalGraph.Panel) :
  LocalGraph.createLocalGraph s (Some sel) true true incoming outgoing
    panelWidth = Some (s', LocalGraph.Started p) ->
  exists lc c,
    LocalGraph.nodesCopy p !! 0%nat = Some lc /\
    LocalGraph.releasePin s' p !! lc = Some c /\
    GraphNode.fx c = Null /\ GraphNode.fy c = Null /\
    GraphNode.x c = Num (fst (LocalGraph.panelSize panelWidth) / 2) /\
    GraphNode.y c = Num (snd (LocalGraph.panelSize panelWidth) / 2) /\
    forall k, k <> lc -> LocalGraph.releasePin s' p !! k = s' !! k.
Proof.
  intros Hc.
  destruct (createLocalGraph_started _ _ _ _ _ _ _ _ _ Hc)
    as (sel' & selected & values & Hsel & _ & _ & Hs & Hr & Ha & Hp & _).
  injection Hsel as <-.
  destruct (allocAll_spec _ _ _ _ Ha) as (_ & Hkeep & _ & _).
  destruct (createLocalGraph_copies _ _ _ _ _ _ _ _ Hc Hs 0%nat sel selected
              eq_refl Hs) as [lc [H0 Hlc]].
  unfold LocalGraph.initialNode in Hlc. rewrite String.eqb_refl in Hlc.
  set (c0 := GraphNode.set_pin _ _ _) in Hlc.
  assert (Hrel : LocalGraph.releasePin s' p
                 = <[lc := GraphNode.set_pin Null Null c0]> s').
  { unfold LocalGraph.releasePin. rewrite Hp, (Hkeep _ _ Hs).
    destruct (LocalGraph.nodesCopy p) as [|l0 rest]; [discriminate|].
    injection H0 as ->. cbn [LocalGraph.findLoc]. rewrite Hlc.
    assert (Hid : String.eqb (GraphNode.id c0) (GraphNode.id selected) = true)
      by apply String.eqb_refl.
    rewrite Hid. now rewrite Hlc. }
  exists lc, (GraphNode.set_pin Null Null c0).
  split; [exact H0|]. rewrite Hrel.
  split; [apply lookup_insert_eq|].
  repeat split. intros k Hk. now apply lookup_insert_ne.
Qed.

(** X26, on a store holding the nodes A and B, with B an outgoing
    neighbour of the selected A. *)
Lemma pin_release_unpins_centre_witness :
  let a := GraphNode.plain "A" "Paper" in
  let b := GraphNode.plain "B" "Entity" in
  let s : gmap nat GraphNode.t := <[0%nat := a]> (<[1%nat := b]> ∅) in
  let out := [LocalGraph.mkConnection 1 (GraphEdge.mk "A" "B" None None)] in
  exists s' p lc c,
    LocalGraph.createLocalGraph s (Some 0%nat) true true [] out 384
    = Some (s', LocalGraph.Started p) /\
    LocalGraph.nodesCopy p !! 0%nat = Some lc /\
    LocalGraph.releasePin s' p !! lc = Some c /\
    GraphNode.fx c = Null /\ GraphNode.fy c = Null.
Proof.
  intros a b s out.
  destruct (createLocalGraph_starts s 0%nat [] out 384) as (s' & p & Hc).
  { intros l [<- | [<- | []]]; now eexists. }
  { simpl. lia. }
  destruct (pin_release_unpins_centre _ _ _ _ _ _ _ Hc)
    as (lc & c & H1 & H2 & H3 & H4 & _).
  exists s', p, lc, c. repeat split; assumption.
Defined.

(** ** Node styling *)

(** X27: a selected node is drawn larger than it would be unselected:
    by exactly 6 for the types Paper, Entity, Result and Conclusion and
    by exactly 5 for every other type; unselected radii lie between 5
    and 12, selected ones between 10 and 18. *)
Theorem selected_node_is_larger (selectedNode : GraphNode.t)
        (node : GraphNode.t) :
  GraphNode.id selectedNode = GraphNode.id node ->
  let small := Style.getNodeSize None node in
  let large := Style.getNodeSize (Some selectedNode) node in
  let known := ["Paper"; "Entity"; "Result"; "Conclusion"] in
  (5 <= small <= 12)%R /\ (10 <= large <= 18)%R /\
  (In (GraphNode.type node) known -> large = (small + 6)%R) /\
  (~ In (GraphNode.type node) known -> large = (small + 5)%R).
Proof.
  intros Hid. unfold Style.getNodeSize, Style.isSelected.
  rewrite Hid, String.eqb_refl. cbv zeta.
  destruct (String.eqb (GraphNode.type node) "Paper") eqn:H1.
  { apply String.eqb_eq in H1. repeat split; try lra.
    intros Hn. elim Hn. left. now symmetry. }
  destruct (String.eqb (GraphNode.type node) "Entity") eqn:H2.
  { apply String.eqb_eq in H2. repeat split; try lra.
    intros Hn. elim Hn. right. left. now symmetry. }
  destruct (String.eqb (GraphNode.type node) "Result") eqn:H3.
  { apply String.eqb_eq in H3. repeat split; try lra.
    intros Hn. elim Hn. right. right. left. now symmetry. }
  destruct (String.eqb (GraphNode.type node) "Conclusion") eqn:H4.
  { apply String.eqb_eq in H4. repeat split; try lra.
    intros Hn. elim Hn. right. right. right. left. now symmetry. }
  apply String.eqb_neq in H1, H2, H3, H4.
  repeat split; try lra.
  intros [H | [H | [H | [H | []]]]]; congruence.
Qed.

(** X27, on a selected Paper node and a selected node of another
    type. *)
Lemma selected_node_is_larger_witness :
  let a := GraphNode.plain "A" "Paper" in
  let u := GraphNode.plain "U" "unknown" in
  Style.getNodeSize (Some a) a = (Style.getNodeSize None a + 6)%R /\
  Style.getNodeSize (Some u) u = (Style.getNodeSize None u + 5)%R.
Proof.
  intros a u.
  destruct (selected_node_is_larger a a eq_refl) as (_ & _ & Ha & _).
  destruct (selected_node_is_larger u u eq_refl) as (_ & _ & _ & Hu).
  split.
  - apply Ha. left. reflexivity.
  - apply Hu. intros [H | [H | [H | [H | []]]]]; discriminate.
Defined.

(** X28: every node whose type is not the empty string has a label
    that is not empty. *)
Theorem node_label_not_empty (showNumber : R -> string) (node : GraphNode.t) :
  GraphNode.type node <> "" ->
  Style.getNodeLabel showNumber node <> "".
Proof.
  intros Ht. unfold Style.getNodeLabel.
  assert (Htruthy : forall o, truthy o = true -> Style.orEmpty o <> "").
  { intros [t|]; simpl; [|discriminate].
    intros H Heq. subst t. discriminate. }
  destruct (truthy (GraphNode.canonical_name node)) eqn:H1;
    [now apply Htruthy|].
  destruct (truthy (GraphNode.name node)) eqn:H2; [now apply Htruthy|].
  destruct (truthy (GraphNode.statement node)) eqn:H3; [now apply Htruthy|].
  destruct (truthy (GraphNode.content node)) eqn:H4; [now apply Htruthy|].
  destruct (String.eqb (GraphNode.type node) "Paper"); [discriminate|].
  exact Ht.
Qed.

(** X28, on a Result node that has only a statement. *)
Lemma node_label_not_empty_witness :
  Style.getNodeLabel (fun _ => "2020")
    (GraphNode.mk "r1" "Result" None None None None None
       (Some "SIRT1 activation extends lifespan")
       Undefined Undefined Undefined Undefined Undefined Undefined Undefined)
  <> "".
Proof. apply node_label_not_empty. discriminate. Defined.

(** ** From the report page to the graph page *)

Lemma split_plain (sep : ascii) (s : string) :
  Page.hasChar sep s = false -> Page.split sep s = [s].
Proof.
  induction s as [|c s IH]; simpl; [reflexivity|].
  intros H. apply orb_false_elim in H as [Hc Hs].
  rewrite Hc, (IH Hs). reflexivity.
Qed.

Lemma split_at_first (sep : ascii) (a b : string) :
  Page.hasChar sep a = false ->
  Page.split sep (a +:+ String sep b) = a :: Page.split sep b.
Proof.
  induction a as [|c a IH]; intros H.
  - change (Page.split sep (String sep b) = "" :: Page.split sep b).
    simpl. now rewrite Ascii.eqb_refl.
  - simpl in H. apply orb_false_elim in H as [Hc Ha].
    change (Page.split sep (String c (a +:+ String sep b))
            = String c a :: Page.split sep b).
    simpl. rewrite Hc, (IH Ha). reflexivity.
Qed.

Lemma split_join (papers : list string) :
  papers <> [] ->
  (forall p, In p papers -> Page.hasChar "," p = false) ->
  Page.split "," (Page.highlightParam papers) = papers.
Proof.
  unfold Page.highlightParam, join.
  induction papers as [|p papers IH]; intros Hne Hplain; [congruence|].
  destruct papers as [|q papers].
  - simpl. apply split_plain, Hplain. now left.
  - change (String.concat "," (p :: q :: papers))
      with (p +:+ String "," (String.concat "," (q :: papers))).
    rewrite split_at_first by (apply Hplain; now left).
    rewrite IH; [reflexivity | discriminate|].
    intros r Hr. apply Hplain. now right.
Qed.

(** X8: a graph link of the report page comes out right: for a
    non-empty list of paper ids free of commas, splitting the value of
    the highlight parameter at the commas gives back the list, so the
    graph page highlights exactly those papers and opens its search
    panel. *)
Theorem report_link_round_trip (papers : list string) (focus : option string) :
  papers <> [] ->
  (forall p, In p papers -> Page.hasChar "," p = false) ->
  let props :=
    Page.graphPageProps focus (Some (Page.highlightParam papers))
                        (Some "open") in
  Page.linkShown papers = true /\
  Page.highlightPapers props = papers /\
  Page.openSearch props = true /\
  Page.showSearchOnMount props = true.
Proof.
  intros Hne Hplain props. subst props.
  unfold Page.graphPageProps, Page.showSearchOnMount.
  cbn [Page.highlightPapers Page.openSearch Page.focusNodeId].
  rewrite (split_join papers Hne Hplain).
  split; [destruct papers; [congruence | reflexivity]|].
  split; [reflexivity|]. split; [reflexivity|].
  now rewrite orb_true_r.
Qed.

(** X8, on the papers p1 and p2. *)
Lemma report_link_round_trip_witness :
  Page.highlightPapers
    (Page.graphPageProps None (Some (Page.highlightParam ["p1"; "p2"]))
                         (Some "open"))
  = ["p1"; "p2"].
Proof.
  destruct (report_link_round_trip ["p1"; "p2"] None) as (_ & H & _).
  - discriminate.
  - intros p [<- | [<- | []]]; reflexivity.
  - exact H.
Defined.

(** X29: when the list of highlighted papers contains the empty
    string, as it does for an empty highlight parameter, every node
    that is not selected and has no paper_id is drawn in the highlight
    colour, and the search panel is opened on mount. *)
Theorem empty_highlight_entry_marks_nodes
        (props : Page.Props) (selectedNode : option GraphNode.t)
        (node : GraphNode.t) :
  In "" (Page.highlightPapers props) ->
  Style.isSelected selectedNode node = false ->
  truthy (GraphNode.paper_id node) = false ->
  Style.getNodeColor selectedNode (Page.highlightPapers props) node
  = "#ffd700" /\
  Page.showSearchOnMount props = true.
Proof.
  intros Hin Hsel Hpaper. split.
  - unfold Style.getNodeColor. rewrite Hsel.
    assert (He : Style.orEmpty (GraphNode.paper_id node) = "").
    { destruct (GraphNode.paper_id node) as [t|]; [|reflexivity].
      simpl in Hpaper. apply negb_false_iff, String.eqb_eq in Hpaper.
      exact Hpaper. }
    rewrite He. apply arrayIncludes_iff in Hin. rewrite Hin.
    now rewrite orb_true_r.
  - unfold Page.showSearchOnMount.
    destruct (Page.highlightPapers props); [destruct Hin|].
    simpl. now rewrite orb_true_r.
Qed.

(** X29, on the address with an empty highlight parameter and an
    Entity node. *)
Lemma empty_highlight_entry_marks_nodes_witness :
  Style.getNodeColor None
    (Page.highlightPapers (Page.graphPageProps None (Some "") None))
    (GraphNode.plain "e1" "Entity")
  = "#ffd700".
Proof.
  destruct (empty_highlight_entry_marks_nodes
              (Page.graphPageProps None (Some "") None) None
              (GraphNode.plain "e1" "Entity")) as [H _];
    [left; reflexivity | reflexivity | reflexivity | exact H].
Defined.
